(** * eos/morphablemodel/PcaModel.hpp: a shallow embedding

    The header defines the class [PcaModel] (mean, normalised and
    unnormalised PCA basis, eigenvalues, triangle list, random engine) and
    the two free functions [normalisePcaBasis] and [unnormalisePcaBasis].

    Layout of this development:
    - 32-bit [int] arithmetic, the scalar interface standing for [float]
      (with an exact instance over the reals and an executable IEEE
      binary32 instance), and the outcome of a call (value, C++ exception,
      or out-of-bounds access);
    - the part of [cv::Mat] the header uses, as a dense row-major matrix;
    - the two free functions and the members of [PcaModel], written after
      the source;
    - the properties. *)

From Stdlib Require Import ZArith Lia Reals Lra.
From Stdlib Require Import Floats.SpecFloat.
From stdpp Require Import base list.

Set Default Proof Using "Type".

(** ** 32-bit signed integers

    [int] values are integers of [Z] in [INT_MIN, INT_MAX]; arithmetic
    results are reduced to that range by two's-complement wrap-around,
    which is what the compiled code computes (the C++ standard itself
    leaves signed overflow undefined). *)

Module Int.

Definition INT_MAX : Z := 2147483647.
Definition INT_MIN : Z := -2147483648.

Definition in_range (z : Z) : Prop := (INT_MIN <= z <= INT_MAX)%Z.

Definition wrap (z : Z) : Z :=
  ((z + 2147483648) `mod` 4294967296 - 2147483648)%Z.

Definition mul (a b : Z) : Z := wrap (a * b).
Definition add (a b : Z) : Z := wrap (a + b).

End Int.

(** ** Scalars

    Every matrix of the header holds [float]s.  The operations the code
    applies to them are collected in an interface, so that the functions
    below are written once and run on any instance. *)

Class Scalar (F : Type) := {
  fzero : F;                (* 0.0f, also the value [resize] pads with *)
  fone : F;                 (* 1.0f *)
  fadd : F -> F -> F;
  fmul : F -> F -> F;
  fdiv : F -> F -> F;
  fsqrt : F -> F;           (* std::sqrt *)
}.

(** Exact arithmetic: the real numbers. *)
#[export] Instance Rscalar : Scalar R := {
  fzero := 0%R;
  fone := 1%R;
  fadd := Rplus;
  fmul := Rmult;
  fdiv := Rdiv;
  fsqrt := sqrt;
}.

(** IEEE 754 binary32 ([float]): 24 bits of precision, [emax = 128]. *)
Definition binary32 : Type := spec_float.

Definition b32_of_Z (z : Z) : binary32 := binary_normalize 24 128 z 0 false.

(** [b32_frac n d] is the quotient of two integers, rounded once. *)
Definition b32_frac (n d : Z) : binary32 :=
  SFdiv 24 128 (b32_of_Z n) (b32_of_Z d).

#[export] Instance b32scalar : Scalar binary32 := {
  fzero := S754_zero false;
  fone := b32_of_Z 1;
  fadd := SFadd 24 128;
  fmul := SFmul 24 128;
  fdiv := SFdiv 24 128;
  fsqrt := SFsqrt 24 128;
}.

(** ** Outcome of a call *)

Inductive fault : Type :=
  | OutOfRange     (* std::out_of_range thrown by the header itself *)
  | CvError        (* cv::Exception raised by a failed check inside OpenCV *)
  | OutOfBounds.   (* unchecked access outside a matrix buffer *)

Inductive res (A : Type) : Type :=
  | Ok (a : A)
  | Fail (e : fault).
Arguments Ok {A} a.
Arguments Fail {A} e.

#[export] Instance res_ret : MRet res := @Ok.
#[export] Instance res_bind : MBind res := fun A B f m =>
  match m with
  | Ok a => f a
  | Fail e => Fail e
  end.

#[export] Instance res_fmap : FMap res := fun A B f m =>
  match m with
  | Ok a => Ok (f a)
  | Fail e => Fail e
  end.

Definition of_option {A} (e : fault) (o : option A) : res A :=
  match o with
  | Some a => Ok a
  | None => Fail e
  end.

(** ** Dense matrices ([cv::Mat], type CV_32FC1)

    A matrix is its two [int] dimensions and its elements in row-major
    order, the order of a continuous OpenCV buffer: element [(i, j)] is at
    position [i * cols + j].  Strides and reference counts are not
    represented; a header that shares its buffer with another one is
    modelled by the value it denotes. *)

Record Mat (F : Type) : Type := mkMat {
  rows : nat;
  cols : nat;
  data : list F;
}.
Arguments mkMat {F} rows cols data.
Arguments rows {F} m.
Arguments cols {F} m.
Arguments data {F} m.

(** What OpenCV guarantees of every matrix it hands out. *)
Definition Mat_wf {F} (m : Mat F) : Prop :=
  length (data m) = rows m * cols m /\
  (Z.of_nat (rows m) <= Int.INT_MAX)%Z /\
  (Z.of_nat (cols m) <= Int.INT_MAX)%Z.

Section Matrix.
Context {F : Type} {SF : Scalar F}.

(** Element [(i, j)], if the buffer has it. *)
Definition Mat_get (m : Mat F) (i j : nat) : option F :=
  data m !! (i * cols m + j).

(** [m.at<float>(i)] used as a value: the [i]-th element of the buffer.
    The release build does not check [i]. *)
Definition Mat_at (m : Mat F) (i : Z) : res F :=
  if (i <? 0)%Z then Fail OutOfBounds
  else of_option OutOfBounds (data m !! Z.to_nat i).

(** [m.at<float>(i) = x]. *)
Definition Mat_at_put (m : Mat F) (i : Z) (x : F) : res (Mat F) :=
  if (i <? 0)%Z then Fail OutOfBounds
  else if decide (Z.to_nat i < length (data m))
  then Ok (mkMat (rows m) (cols m) (<[Z.to_nat i := x]> (data m)))
  else Fail OutOfBounds.

(** [m.clone()]: a deep copy, the same value in a buffer of its own. *)
Definition Mat_clone (m : Mat F) : Mat F := m.

(** [Mat(size, type)]: a fresh buffer whose content is not initialised.
    The model fills it with zeros; the two functions that allocate a
    matrix overwrite every element before they return it (see
    [each_col_spec], which holds for any initial content). *)
Definition Mat_alloc (r c : nat) : Mat F :=
  mkMat r c (replicate (r * c) fzero).

(** [m.col(j)]: the elements of column [j], top to bottom. *)
Definition Mat_col (m : Mat F) (j : nat) : res (list F) :=
  if decide (j < cols m)
  then of_option OutOfBounds (mapM (fun i => Mat_get m i j) (seq 0 (rows m)))
  else Fail CvError.

(** [v.mul(w)] with a scalar [w]: every element times [w]. *)
Definition col_mul (v : list F) (w : F) : list F :=
  (fun x => fmul x w) <$> v.

(** [v.copyTo(m.col(j))]: the elements of [v] are written down column
    [j] of [m], starting at row [i]. *)
Fixpoint copy_col (c j i : nat) (v : list F) (d : list F) : list F :=
  match v with
  | [] => d
  | x :: v' => copy_col c j (S i) v' (<[i * c + j := x]> d)
  end.

Definition Mat_copyTo_col (v : list F) (m : Mat F) (j : nat) : Mat F :=
  mkMat (rows m) (cols m) (copy_col (cols m) j 0 v (data m)).

(** [m.rowRange(a, b)]: rows [a] to [b - 1]; OpenCV checks
    [0 <= a <= b <= m.rows] with CV_Assert. *)
Definition Mat_rowRange (m : Mat F) (a b : Z) : res (Mat F) :=
  if decide (0 <= a /\ a <= b /\ b <= Z.of_nat (rows m))%Z
  then Ok (mkMat (Z.to_nat b - Z.to_nat a) (cols m)
             (take ((Z.to_nat b - Z.to_nat a) * cols m)
                   (drop (Z.to_nat a * cols m) (data m))))
  else Fail CvError.

(** [cv::Mat(vec)]: a [std::vector<float>] seen as a column vector. *)
Definition Mat_of_vector (v : list F) : Mat F := mkMat (length v) 1 v.

(** Sum of the products of two sequences, accumulated from the left. *)
Definition dot (u v : list F) : F :=
  foldl fadd fzero (zip_with fmul u v).

Definition Mat_row (m : Mat F) (i : nat) : list F :=
  take (cols m) (drop (i * cols m) (data m)).

Definition Mat_col_list (m : Mat F) (j : nat) : list F :=
  omap (fun i => Mat_get m i j) (seq 0 (rows m)).

(** [a * b]: the matrix product; OpenCV's gemm checks that the inner
    dimensions agree. *)
Definition Mat_mul (a b : Mat F) : res (Mat F) :=
  if decide (cols a = rows b)
  then Ok (mkMat (rows a) (cols b)
             (i ← seq 0 (rows a);
              (fun k => dot (Mat_row a i) (Mat_col_list b k)) <$> seq 0 (cols b)))
  else Fail CvError.

(** [a + b]: element-wise sum; OpenCV checks that the sizes agree. *)
Definition Mat_add (a b : Mat F) : res (Mat F) :=
  if decide (rows a = rows b /\ cols a = cols b)
  then Ok (mkMat (rows a) (cols a) (zip_with fadd (data a) (data b)))
  else Fail CvError.

End Matrix.

(** ** The free functions and the class *)

(** The random number engine ([std::mt19937]) and the distribution object
    ([std::normal_distribution<float>]) belong to the C++ standard
    library; the header only seeds the engine and draws from it. *)
Class RandomSource (F : Type) := {
  Engine : Type;
  Distribution : Type;
  engine_seed : Z -> Engine;                      (* engine.seed(seed) *)
  normal_distribution : F -> F -> Distribution;   (* (mean, stddev) *)
  draw : Distribution -> Engine -> F * Distribution * Engine;
}.

Record Vec4f (F : Type) : Type := mkVec4f {
  vec0 : F; vec1 : F; vec2 : F; vec3 : F;
}.
Arguments mkVec4f {F} vec0 vec1 vec2 vec3.

Section Free.
Context {F : Type} {SF : Scalar F}.

(** [for (int i = 0; i < eigenvalues.rows; ++i)
      s.at<float>(i) = f(eigenvalues.at<float>(i));]
    with [ks] the values of [i] still to come. *)
Fixpoint each_row (f : F -> F) (eigenvalues : Mat F) (ks : list nat)
    (s : Mat F) : res (Mat F) :=
  match ks with
  | [] => Ok s
  | i :: ks' =>
      x ← Mat_at eigenvalues (Z.of_nat i);
      s' ← Mat_at_put s (Z.of_nat i) (f x);
      each_row f eigenvalues ks' s'
  end.

(** [for (int basis = 0; basis < in.cols; ++basis) {
      Mat v = in.col(basis).mul(scale.at<float>(basis));
      v.copyTo(out.col(basis)); }] *)
Fixpoint each_col (input scale : Mat F) (js : list nat) (out : Mat F)
    : res (Mat F) :=
  match js with
  | [] => Ok out
  | basis :: js' =>
      w ← Mat_at scale (Z.of_nat basis);
      c ← Mat_col input basis;
      each_col input scale js' (Mat_copyTo_col (col_mul c w) out basis)
  end.

Definition normalisePcaBasis (unnormalisedBasis eigenvalues : Mat F)
    : res (Mat F) :=
  let normalisedBasis :=
    Mat_alloc (rows unnormalisedBasis) (cols unnormalisedBasis) in
  let sqrtOfEigenvalues := Mat_clone eigenvalues in
  sqrtOfEigenvalues ←
    each_row fsqrt eigenvalues (seq 0 (rows eigenvalues)) sqrtOfEigenvalues;
  each_col unnormalisedBasis sqrtOfEigenvalues
    (seq 0 (cols unnormalisedBasis)) normalisedBasis.

Definition unnormalisePcaBasis (normalisedBasis eigenvalues : Mat F)
    : res (Mat F) :=
  let unnormalisedBasis :=
    Mat_alloc (rows normalisedBasis) (cols normalisedBasis) in
  let oneOverSqrtOfEigenvalues := Mat_clone eigenvalues in
  oneOverSqrtOfEigenvalues ←
    each_row (fun x => fdiv fone (fsqrt x)) eigenvalues
      (seq 0 (rows eigenvalues)) oneOverSqrtOfEigenvalues;
  each_col normalisedBasis oneOverSqrtOfEigenvalues
    (seq 0 (cols normalisedBasis)) unnormalisedBasis.

End Free.

Section Class.
Context {F : Type} {SF : Scalar F} {RS : RandomSource F}.

Record PcaModel : Type := mkPcaModel {
  engine : Engine;
  mean : Mat F;
  normalisedPcaBasis : Mat F;
  unnormalisedPcaBasis : Mat F;
  eigenvalues : Mat F;
  triangleList : list (Z * Z * Z);
}.

(** The constructor; [seed] is the value [std::random_device()()]
    returns. *)
Definition PcaModel_new (seed : Z) (mean pcaBasis eigenvalues : Mat F)
    (triangleList : list (Z * Z * Z)) : res PcaModel :=
  unnormalised ← unnormalisePcaBasis pcaBasis eigenvalues;
  Ok (mkPcaModel (engine_seed seed) mean pcaBasis unnormalised eigenvalues
        triangleList).

Definition getNumberOfPrincipalComponents (M : PcaModel) : Z :=
  Z.of_nat (cols (normalisedPcaBasis M)).

Definition getDataDimension (M : PcaModel) : Z :=
  Z.of_nat (rows (normalisedPcaBasis M)).

Definition getTriangleList (M : PcaModel) : list (Z * Z * Z) :=
  triangleList M.

Definition getMean (M : PcaModel) : Mat F := mean M.

Definition getMeanAtPoint (M : PcaModel) (vertexIndex : Z) : res (Vec4f F) :=
  let vertexIndex := Int.mul vertexIndex 3 in
  if decide (vertexIndex >= Z.of_nat (rows (mean M)))%Z
  then Fail OutOfRange
  else
    x ← Mat_at (mean M) vertexIndex;
    y ← Mat_at (mean M) (Int.add vertexIndex 1);
    z ← Mat_at (mean M) (Int.add vertexIndex 2);
    Ok (mkVec4f x y z fone).

(** [coefficients.resize(n)]: cut to [n] elements, or padded with
    value-initialised ones. *)
Definition resize (v : list F) (n : nat) : list F :=
  take n v ++ replicate (n - length v) fzero.

(** [drawSample(std::vector<float> coefficients)]. *)
Definition drawSample (M : PcaModel) (coefficients : list F) : res (Mat F) :=
  let coefficients :=
    if decide (Z.of_nat (length coefficients)
               < getNumberOfPrincipalComponents M)%Z
    then resize coefficients (Z.to_nat (getNumberOfPrincipalComponents M))
    else coefficients in
  let alphas := Mat_of_vector coefficients in
  product ← Mat_mul (normalisedPcaBasis M) alphas;
  Mat_add (mean M) product.

(** [for (auto&& a : alphas) a = distribution(engine);] over the [n]
    elements of [alphas]. *)
Fixpoint draw_alphas (n : nat) (distribution : Distribution) (e : Engine)
    : list F * Engine :=
  match n with
  | O => ([], e)
  | S n' =>
      let '(a, distribution', e') := draw distribution e in
      let '(rest, e'') := draw_alphas n' distribution' e' in
      (a :: rest, e'')
  end.

(** [drawSample(float sigma)]: the sample, and the model with its engine
    advanced. *)
Definition drawSample_sigma (M : PcaModel) (sigma : F)
    : res (Mat F) * PcaModel :=
  let distribution := normal_distribution fzero sigma in
  let '(alphas, e) :=
    draw_alphas (Z.to_nat (getNumberOfPrincipalComponents M))
      distribution (engine M) in
  let M' := mkPcaModel e (mean M) (normalisedPcaBasis M)
              (unnormalisedPcaBasis M) (eigenvalues M) (triangleList M) in
  (drawSample M' alphas, M').

Definition getNormalisedPcaBasis (M : PcaModel) : Mat F :=
  Mat_clone (normalisedPcaBasis M).

(** [getNormalisedPcaBasis(int vertexId)]. *)
Definition getNormalisedPcaBasis_at (M : PcaModel) (vertexId : Z)
    : res (Mat F) :=
  let vertexId := Int.mul vertexId 3 in
  Mat_rowRange (normalisedPcaBasis M) vertexId (Int.add vertexId 3).

Definition getUnnormalisedPcaBasis (M : PcaModel) : Mat F :=
  Mat_clone (unnormalisedPcaBasis M).

(** [getUnnormalisedPcaBasis(int vertexId)]. *)
Definition getUnnormalisedPcaBasis_at (M : PcaModel) (vertexId : Z)
    : res (Mat F) :=
  let vertexId := Int.mul vertexId 3 in
  Mat_rowRange (unnormalisedPcaBasis M) vertexId (Int.add vertexId 3).

Definition getEigenvalue (M : PcaModel) (index : Z) : res F :=
  Mat_at (eigenvalues M) index.

End Class.

(** ** The model as an object: invariants and calls *)

Section Object.
Context {F : Type} {SF : Scalar F} {RS : RandomSource F}.

(** The dimensional invariants of the data model: the mean is a column
    vector of [3 m] rows, both bases have [3 m] rows and [n] columns, and
    the eigenvalues are a column vector of [n] rows. *)
Definition PcaModel_wf (M : PcaModel) : Prop :=
  Mat_wf (mean M) /\ Mat_wf (normalisedPcaBasis M) /\
  Mat_wf (unnormalisedPcaBasis M) /\ Mat_wf (eigenvalues M) /\
  cols (mean M) = 1 /\
  rows (mean M) = rows (normalisedPcaBasis M) /\
  rows (mean M) `mod` 3 = 0 /\
  rows (unnormalisedPcaBasis M) = rows (normalisedPcaBasis M) /\
  cols (unnormalisedPcaBasis M) = cols (normalisedPcaBasis M) /\
  rows (eigenvalues M) = cols (normalisedPcaBasis M) /\
  cols (eigenvalues M) = 1.

(** The number of vertices [m]. *)
Definition vertexCount (M : PcaModel) : Z := (getDataDimension M `div` 3)%Z.

(** The unnormalised basis is the normalised one with column [j]
    multiplied by [1 / sqrt (eigenvalue j)]. *)
Definition basis_consistent (M : PcaModel) : Prop :=
  rows (unnormalisedPcaBasis M) = rows (normalisedPcaBasis M) /\
  cols (unnormalisedPcaBasis M) = cols (normalisedPcaBasis M) /\
  forall i j b e,
    Mat_get (normalisedPcaBasis M) i j = Some b ->
    Mat_at (eigenvalues M) (Z.of_nat j) = Ok e ->
    Mat_get (unnormalisedPcaBasis M) i j =
      Some (fmul b (fdiv fone (fsqrt e))).

(** The public member functions, as calls with their arguments. *)
Inductive call : Type :=
  | GetNumberOfPrincipalComponents
  | GetDataDimension
  | GetTriangleList
  | GetMean
  | GetMeanAtPoint (vertexIndex : Z)
  | DrawSampleSigma (sigma : F)
  | DrawSample (coefficients : list F)
  | GetNormalisedPcaBasis
  | GetNormalisedPcaBasisAt (vertexId : Z)
  | GetUnnormalisedPcaBasis
  | GetUnnormalisedPcaBasisAt (vertexId : Z)
  | GetEigenvalue (index : Z).

Inductive value : Type :=
  | VInt (z : Z)
  | VTriangles (t : list (Z * Z * Z))
  | VMat (m : Mat F)
  | VVec (v : Vec4f F)
  | VFloat (x : F).

(** One call on the object: what the caller gets, and the object
    afterwards.  The [const] members and the coefficient-based
    [drawSample] assign to no member; [drawSample(float)] leaves the
    engine advanced. *)
Definition exec (c : call) (M : PcaModel) : res value * PcaModel :=
  match c with
  | GetNumberOfPrincipalComponents =>
      (Ok (VInt (getNumberOfPrincipalComponents M)), M)
  | GetDataDimension => (Ok (VInt (getDataDimension M)), M)
  | GetTriangleList => (Ok (VTriangles (getTriangleList M)), M)
  | GetMean => (Ok (VMat (getMean M)), M)
  | GetMeanAtPoint v => (VVec <$> getMeanAtPoint M v, M)
  | DrawSampleSigma sigma =>
      let '(r, M') := drawSample_sigma M sigma in (VMat <$> r, M')
  | DrawSample coefficients => (VMat <$> drawSample M coefficients, M)
  | GetNormalisedPcaBasis => (Ok (VMat (getNormalisedPcaBasis M)), M)
  | GetNormalisedPcaBasisAt v => (VMat <$> getNormalisedPcaBasis_at M v, M)
  | GetUnnormalisedPcaBasis => (Ok (VMat (getUnnormalisedPcaBasis M)), M)
  | GetUnnormalisedPcaBasisAt v =>
      (VMat <$> getUnnormalisedPcaBasis_at M v, M)
  | GetEigenvalue i => (VFloat <$> getEigenvalue M i, M)
  end.

(** The object after a sequence of calls. *)
Fixpoint run (cs : list call) (M : PcaModel) : PcaModel :=
  match cs with
  | [] => M
  | c :: cs' => run cs' (exec c M).2
  end.

(** The indices [getMeanAtPoint] passes to [mean.at<float>]. *)
Definition getMeanAtPoint_reads (vertexIndex : Z) : list Z :=
  let vertexIndex := Int.mul vertexIndex 3 in
  [vertexIndex; Int.add vertexIndex 1; Int.add vertexIndex 2].

(** The factor column [j] is multiplied with: [f] of the eigenvalue when
    the first loop reached position [j], the raw buffer element
    otherwise. *)
Definition weight (f : F -> F) (E : Mat F) (j : nat) : option F :=
  (fun e => if decide (j < rows E) then f e else e) <$> data E !! j.

(** The two loops with an arbitrary [f]; the free functions are its
    instances at [fsqrt] and at its reciprocal. *)
Definition scaleBasis (f : F -> F) (B E : Mat F) : res (Mat F) :=
  s ← each_row f E (seq 0 (rows E)) (Mat_clone E);
  each_col B s (seq 0 (cols B)) (Mat_alloc (rows B) (cols B)).

(** The coefficients as the product sees them. *)
Definition padded (M : PcaModel) (coefficients : list F) : list F :=
  coefficients ++
  replicate (cols (normalisedPcaBasis M) - length coefficients) fzero.

End Object.

(** ** Concrete models *)

(** A random source that replays a tape: the engine is the list of the
    standard-normal values still to be drawn, the distribution scales
    them by [sigma].  It stands in for [std::mt19937] where a model has
    to be run. *)
#[export] Instance tape_source {F : Type} {SF : Scalar F} : RandomSource F := {
  Engine := list F;
  Distribution := F;
  engine_seed := fun _ => [];
  normal_distribution := fun _ sigma => sigma;
  draw := fun sigma e => (fmul sigma (hd fzero e), sigma, tl e);
}.

(** Two vertices, one component, eigenvalue 4, in binary32. *)
Definition two_vertex_mean : Mat binary32 :=
  mkMat 6 1 (b32_of_Z <$> [0; 0; 0; 1; 1; 1]%Z).
Definition two_vertex_basis : Mat binary32 :=
  mkMat 6 1 (b32_of_Z <$> [1; 0; 0; 0; 0; 1]%Z).
Definition two_vertex_eigenvalues : Mat binary32 := mkMat 1 1 [b32_of_Z 4].
Definition two_vertex_model : PcaModel (F := binary32) :=
  mkPcaModel (RS := tape_source) [] two_vertex_mean two_vertex_basis
    (mkMat 6 1 [b32_frac 1 2; b32_of_Z 0; b32_of_Z 0;
                b32_of_Z 0; b32_of_Z 0; b32_frac 1 2])
    two_vertex_eigenvalues [].

(** The same mean and normalised basis, every other member different. *)
Definition two_vertex_model_other : PcaModel (F := binary32) :=
  mkPcaModel (RS := tape_source) [b32_of_Z 7] two_vertex_mean
    two_vertex_basis two_vertex_basis (mkMat 1 1 [b32_of_Z 9])
    [(0, 1, 0)%Z].

(** One vertex, three components with eigenvalues 4, 4 and 4. *)
Definition one_vertex_model : PcaModel (F := binary32) :=
  mkPcaModel (RS := tape_source) []
    (mkMat 3 1 (b32_of_Z <$> [5; 6; 7]%Z))
    (mkMat 3 3 (b32_of_Z <$> [1; 0; 0; 0; 1; 0; 0; 0; 1]%Z))
    (mkMat 3 3 [b32_frac 1 2; b32_of_Z 0; b32_of_Z 0;
                b32_of_Z 0; b32_frac 1 2; b32_of_Z 0;
                b32_of_Z 0; b32_of_Z 0; b32_frac 1 2])
    (mkMat 3 1 (b32_of_Z <$> [4; 4; 4]%Z)) [].

(** The two-vertex model over the reals. *)
Definition two_vertex_basis_R : Mat R := mkMat 6 1 [1; 0; 0; 0; 0; 1]%R.
Definition two_vertex_eigenvalues_R : Mat R := mkMat 1 1 [4%R].
Definition two_vertex_model_R : PcaModel (F := R) :=
  mkPcaModel (RS := tape_source) [] (mkMat 6 1 [0; 0; 0; 1; 1; 1]%R)
    two_vertex_basis_R
    (mkMat 6 1 [1 / 2; 0; 0; 0; 0; 1 / 2]%R)
    two_vertex_eigenvalues_R [].

(** A basis of two columns, and the eigenvalues 4 and 9 stored as a row
    vector. *)
Definition ones_basis : Mat binary32 :=
  mkMat 3 2 (b32_of_Z <$> [1; 1; 1; 1; 1; 1]%Z).
Definition row_eigenvalues : Mat binary32 :=
  mkMat 1 2 (b32_of_Z <$> [4; 9]%Z).

(** The tolerance the specification names for the round trip: the
    relative error of every element is at most [1e-5], in binary32. *)
Definition within_tolerance (x b : binary32) : bool :=
  SFleb (SFabs (SFsub 24 128 x b))
        (SFmul 24 128 (b32_frac 1 100000) (SFabs b)).

Definition Mat_within_tolerance (X B : Mat binary32) : bool :=
  Nat.eqb (rows X) (rows B) && Nat.eqb (cols X) (cols B) &&
  Nat.eqb (length (data X)) (length (data B)) &&
  forallb (fun xb => within_tolerance xb.1 xb.2) (zip (data X) (data B)).



(** * Properties *)

(** ** 32-bit arithmetic *)

Lemma Int_wrap_in_range z : Int.in_range (Int.wrap z).
Proof.
  unfold Int.in_range, Int.wrap, Int.INT_MIN, Int.INT_MAX.
  pose proof (Z.mod_pos_bound (z + 2147483648) 4294967296). lia.
Qed.

Lemma Int_wrap_id z : Int.in_range z -> Int.wrap z = z.
Proof.
  unfold Int.in_range, Int.wrap, Int.INT_MIN, Int.INT_MAX. intros Hz.
  rewrite Z.mod_small by lia. lia.
Qed.

(** ** The two loops of the free functions *)

Section Loops.
Context {F : Type} {SF : Scalar F}.

Lemma Mat_at_lookup (m : Mat F) (i : nat) (x : F) :
  data m !! i = Some x -> Mat_at m (Z.of_nat i) = Ok x.
Proof.
  intros Hx. unfold Mat_at.
  destruct (Z.ltb_spec (Z.of_nat i) 0) as [Hneg|_]; [lia|].
  rewrite Nat2Z.id, Hx. reflexivity.
Qed.

Lemma Mat_at_beyond (m : Mat F) (i : Z) :
  (i < 0 \/ Z.of_nat (length (data m)) <= i)%Z -> Mat_at m i = Fail OutOfBounds.
Proof.
  intros Hi. unfold Mat_at.
  destruct (Z.ltb_spec i 0) as [Hneg|Hpos]; [reflexivity|].
  rewrite (proj2 (lookup_ge_None (data m) (Z.to_nat i))) by lia.
  reflexivity.
Qed.

(** After the first loop has run over [a, a + n), the scaling vector
    holds [f] of the eigenvalue at those positions and is untouched
    elsewhere. *)
Lemma each_row_spec (f : F -> F) (E : Mat F) (n : nat) :
  forall (a : nat) (s : Mat F),
    a + n <= length (data E) ->
    length (data s) = length (data E) ->
    exists s', each_row f E (seq a n) s = Ok s' /\
      rows s' = rows s /\ cols s' = cols s /\
      length (data s') = length (data s) /\
      forall k, data s' !! k =
        if decide (a <= k < a + n) then f <$> data E !! k else data s !! k.
Proof.
  induction n as [|n IH]; intros a s Hlen Hs.
  - exists s. repeat split; try reflexivity.
    intros k. destruct (decide (a <= k < a + 0)); [lia|reflexivity].
  - destruct (lookup_lt_is_Some_2 (data E) a) as [x Hx]; [lia|].
    cbn [seq each_row]. rewrite (Mat_at_lookup _ _ _ Hx). cbn.
    unfold Mat_at_put.
    destruct (Z.ltb_spec (Z.of_nat a) 0) as [Hneg|_]; [lia|].
    rewrite Nat2Z.id.
    destruct (decide (a < length (data s))) as [_|Hno]; [|lia]. cbn.
    destruct (IH (S a) (mkMat (rows s) (cols s) (<[a:=f x]> (data s))))
      as (s' & Hrun & Hr & Hc & Hl & Hk).
    { lia. }
    { cbn. rewrite length_insert. exact Hs. }
    exists s'. cbn [rows cols data] in Hr, Hc, Hl, Hk.
    rewrite length_insert in Hl.
    repeat split; try assumption.
    intros k. rewrite Hk.
    destruct (decide (S a <= k < S a + n)) as [Hin|Hout].
    + destruct (decide (a <= k < a + S n)); [reflexivity|lia].
    + destruct (decide (k = a)) as [->|Hne].
      * destruct (decide (a <= a < a + S n)); [|lia].
        rewrite list_lookup_insert_eq by lia. rewrite Hx. reflexivity.
      * destruct (decide (a <= k < a + S n)); [lia|].
        apply list_lookup_insert_ne. lia.
Qed.

Lemma length_copy_col (c j : nat) (v : list F) :
  forall (i : nat) (d : list F), length (copy_col c j i v d) = length d.
Proof.
  induction v as [|x v IH]; intros i d; cbn; [reflexivity|].
  rewrite IH. apply length_insert.
Qed.

(** Writing [v] down column [j] from row [i] changes exactly the
    positions [(i', j)] with [i <= i' < i + length v]. *)
Lemma copy_col_lookup (c j : nat) (v : list F) :
  j < c ->
  forall (i : nat) (d : list F) (i' j' : nat),
    j' < c ->
    (i + length v) * c <= length d ->
    copy_col c j i v d !! (i' * c + j') =
      if decide (j' = j /\ i <= i' < i + length v)
      then v !! (i' - i) else d !! (i' * c + j').
Proof.
  intros Hj. induction v as [|x v IH]; intros i d i' j' Hj' Hd; cbn.
  - destruct (decide (j' = j /\ i <= i' < i + 0)); [lia|reflexivity].
  - cbn in Hd. rewrite IH; [|exact Hj'|rewrite length_insert; lia].
    destruct (decide (j' = j /\ S i <= i' < S i + length v)) as [Hin|Hout].
    + destruct (decide (j' = j /\ i <= i' < i + S (length v))); [|lia].
      replace (i' - i) with (S (i' - S i)) by lia. reflexivity.
    + destruct (decide (j' = j /\ i' = i)) as [[-> ->]|Hne].
      * destruct (decide (j = j /\ i <= i < i + S (length v))); [|lia].
        rewrite Nat.sub_diag. cbn.
        apply list_lookup_insert_eq. nia.
      * destruct (decide (j' = j /\ i <= i' < i + S (length v))); [lia|].
        apply list_lookup_insert_ne. intros Heq. apply Hne.
        destruct (Nat.lt_trichotomy i i') as [Hlt|[->|Hgt]]; [nia|lia|nia].
Qed.

(** The column of a well-formed matrix. *)
Lemma Mat_col_spec (m : Mat F) (j : nat) :
  Mat_wf m -> j < cols m ->
  exists v, Mat_col m j = Ok v /\ length v = rows m /\
    forall i, i < rows m -> v !! i = Mat_get m i j.
Proof.
  intros (Hlen & _ & _) Hj. unfold Mat_col.
  destruct (decide (j < cols m)) as [_|Hno]; [|lia].
  destruct (mapM (fun i => Mat_get m i j) (seq 0 (rows m))) as [v|] eqn:Hv.
  - exists v. apply mapM_Some in Hv.
    pose proof (Forall2_length _ _ _ Hv) as Hl. rewrite length_seq in Hl.
    repeat split; [lia|]. intros i Hi.
    destruct (Forall2_lookup_l _ _ _ i i Hv) as (y & Hy & Hget).
    { apply lookup_seq_lt. exact Hi. }
    rewrite Hy, Hget. reflexivity.
  - exfalso.
    assert (is_Some (mapM (fun i => Mat_get m i j) (seq 0 (rows m)))) as Hs.
    { apply mapM_is_Some, Forall_forall. intros i Hi.
      apply elem_of_seq in Hi. cbn. unfold Mat_get.
      apply lookup_lt_is_Some. nia. }
    rewrite Hv in Hs. destruct Hs as [? Hs]. discriminate Hs.
Qed.

(** After the second loop has run over the columns [a, a + n), these
    columns of [out] hold the scaled columns of the input, whatever [out]
    held before; the other columns are untouched. *)
Lemma each_col_spec (B scale : Mat F) (n : nat) :
  Mat_wf B -> cols B <= length (data scale) ->
  forall (a : nat) (out : Mat F),
    a + n <= cols B ->
    rows out = rows B -> cols out = cols B ->
    length (data out) = rows B * cols B ->
    exists N, each_col B scale (seq a n) out = Ok N /\
      rows N = rows B /\ cols N = cols B /\
      length (data N) = rows B * cols B /\
      forall i j, i < rows B -> j < cols B ->
        Mat_get N i j =
          if decide (a <= j < a + n)
          then b ← Mat_get B i j; w ← data scale !! j; Some (fmul b w)
          else Mat_get out i j.
Proof.
  intros HB Hscale. induction n as [|n IH]; intros a out Ha Hr Hc Hl.
  - exists out. repeat split; try assumption.
    intros i j _ _. destruct (decide (a <= j < a + 0)); [lia|reflexivity].
  - destruct (lookup_lt_is_Some_2 (data scale) a) as [w Hw]; [lia|].
    destruct (Mat_col_spec B a HB) as (v & Hcol & Hv & Hvi); [lia|].
    cbn [seq each_col]. rewrite (Mat_at_lookup _ _ _ Hw), Hcol. cbn [mbind res_bind].
    destruct (IH (S a) (Mat_copyTo_col (col_mul v w) out a))
      as (N & Hrun & HrN & HcN & HlN & HN).
    { lia. }
    { exact Hr. }
    { exact Hc. }
    { cbn. rewrite length_copy_col. exact Hl. }
    exists N. repeat split; try assumption.
    intros i j Hi Hj. rewrite (HN i j Hi Hj).
    destruct (decide (S a <= j < S a + n)) as [Hin|Hout].
    + destruct (decide (a <= j < a + S n)); [reflexivity|lia].
    + assert (length (col_mul v w) = rows B) as Hlv.
      { unfold col_mul. rewrite length_fmap. exact Hv. }
      unfold Mat_get at 1. cbn [Mat_copyTo_col cols data].
      rewrite copy_col_lookup; [|lia|lia|rewrite Hlv, Hc, Hl; lia].
      rewrite Hlv.
      destruct (decide (j = a /\ 0 <= i < 0 + rows B)) as [[-> _]|Hne].
      * destruct (decide (a <= a < a + S n)); [|lia].
        rewrite Nat.sub_0_r. unfold col_mul.
        rewrite list_lookup_fmap, (Hvi i Hi), Hw.
        destruct (Mat_get B i a); reflexivity.
      * destruct (decide (a <= j < a + S n)); [lia|]. reflexivity.
Qed.

(** Both free functions are these two loops, with [f] the square root or
    its reciprocal. *)
Lemma scale_loops_spec (f : F -> F) (B E : Mat F) :
  Mat_wf B ->
  rows E <= length (data E) ->
  cols B <= length (data E) ->
  exists N,
    (s ← each_row f E (seq 0 (rows E)) (Mat_clone E);
     each_col B s (seq 0 (cols B)) (Mat_alloc (rows B) (cols B))) = Ok N /\
    rows N = rows B /\ cols N = cols B /\ Mat_wf N /\
    forall i j, i < rows B -> j < cols B ->
      Mat_get N i j = b ← Mat_get B i j; w ← weight f E j; Some (fmul b w).
Proof.
  intros HB HE HBE.
  destruct (each_row_spec f E (rows E) 0 (Mat_clone E)) as
    (s & Hs & _ & _ & Hls & Hsk); [lia|reflexivity|].
  rewrite Hs. cbn [mbind res_bind].
  destruct (each_col_spec B s (cols B) HB) with (a := 0)
    (out := Mat_alloc (rows B) (cols B)) as (N & HN & Hr & Hc & Hl & Hget).
  { rewrite Hls. exact HBE. }
  { lia. }
  { reflexivity. }
  { reflexivity. }
  { cbn. apply length_replicate. }
  exists N. split; [exact HN|]. split; [exact Hr|]. split; [exact Hc|].
  split.
  { destruct HB as (_ & Hrb & Hcb).
    unfold Mat_wf. rewrite Hr, Hc. auto. }
  intros i j Hi Hj. rewrite (Hget i j Hi Hj).
  destruct (decide (0 <= j < 0 + cols B)); [|lia].
  unfold weight. rewrite Hsk. unfold Mat_clone.
  destruct (decide (0 <= j < 0 + rows E)), (decide (j < rows E)); try lia;
    destruct (Mat_get B i j), (data E !! j); reflexivity.
Qed.

End Loops.

(** ** The free functions, element by element *)

Section FreeSpec.
Context {F : Type} {SF : Scalar F}.

Lemma normalisePcaBasis_spec (B E : Mat F) :
  Mat_wf B -> rows E <= length (data E) -> cols B <= length (data E) ->
  exists N, normalisePcaBasis B E = Ok N /\
    rows N = rows B /\ cols N = cols B /\ Mat_wf N /\
    forall i j, i < rows B -> j < cols B ->
      Mat_get N i j =
        b ← Mat_get B i j; w ← weight fsqrt E j; Some (fmul b w).
Proof. exact (scale_loops_spec fsqrt B E). Qed.

Lemma unnormalisePcaBasis_spec (B E : Mat F) :
  Mat_wf B -> rows E <= length (data E) -> cols B <= length (data E) ->
  exists N, unnormalisePcaBasis B E = Ok N /\
    rows N = rows B /\ cols N = cols B /\ Mat_wf N /\
    forall i j, i < rows B -> j < cols B ->
      Mat_get N i j =
        b ← Mat_get B i j;
        w ← weight (fun x => fdiv fone (fsqrt x)) E j;
        Some (fmul b w).
Proof. exact (scale_loops_spec (fun x => fdiv fone (fsqrt x)) B E). Qed.

(** Two matrices of the same size with the same elements are equal. *)
Lemma Mat_ext (A B : Mat F) :
  rows A = rows B -> cols A = cols B ->
  length (data A) = rows A * cols A ->
  length (data B) = rows B * cols B ->
  (forall i j, i < rows B -> j < cols B -> Mat_get A i j = Mat_get B i j) ->
  A = B.
Proof.
  destruct A as [r1 c1 d1], B as [r2 c2 d2]. unfold Mat_get. cbn.
  intros -> -> Hl1 Hl2 Hget. f_equal. apply list_eq. intros p.
  destruct (decide (p < r2 * c2)) as [Hp|Hp].
  - assert (0 < c2) as Hc by nia.
    pose proof (Nat.div_mod_eq p c2) as Hdm.
    pose proof (Nat.mod_upper_bound p c2) as Hm.
    assert (p `div` c2 < r2) as Hd.
    { apply Nat.Div0.div_lt_upper_bound. lia. }
    specialize (Hget (p `div` c2) (p `mod` c2) Hd (Hm ltac:(lia))).
    replace (p `div` c2 * c2 + p `mod` c2) with p in Hget by lia.
    exact Hget.
  - rewrite (proj2 (lookup_ge_None d1 p)) by lia.
    rewrite (proj2 (lookup_ge_None d2 p)) by lia. reflexivity.
Qed.

(** The result does not depend on what the freshly allocated matrix
    held: the loop over all columns gives the same matrix from any
    start of the right size. *)
Lemma each_col_overwrites (B scale out1 out2 : Mat F) :
  Mat_wf B -> cols B <= length (data scale) ->
  rows out1 = rows B -> cols out1 = cols B ->
  length (data out1) = rows B * cols B ->
  rows out2 = rows B -> cols out2 = cols B ->
  length (data out2) = rows B * cols B ->
  each_col B scale (seq 0 (cols B)) out1 =
  each_col B scale (seq 0 (cols B)) out2.
Proof.
  intros HB Hs Hr1 Hc1 Hl1 Hr2 Hc2 Hl2.
  destruct (each_col_spec B scale (cols B) HB Hs 0 out1)
    as (N1 & -> & HrN1 & HcN1 & HlN1 & HN1); [lia|assumption..|].
  destruct (each_col_spec B scale (cols B) HB Hs 0 out2)
    as (N2 & -> & HrN2 & HcN2 & HlN2 & HN2); [lia|assumption..|].
  f_equal. apply Mat_ext; try congruence.
  intros i j Hi Hj. rewrite HrN2 in Hi. rewrite HcN2 in Hj.
  rewrite (HN1 i j Hi Hj), (HN2 i j Hi Hj).
  destruct (decide (0 <= j < 0 + cols B)); [reflexivity|lia].
Qed.


End FreeSpec.

(** ** Column-wise scaling and the round trip *)

Section Scaling.
Context {F : Type} {SF : Scalar F}.

Lemma normalisePcaBasis_unfold (B E : Mat F) :
  normalisePcaBasis B E = scaleBasis fsqrt B E.
Proof. reflexivity. Qed.

Lemma unnormalisePcaBasis_unfold (B E : Mat F) :
  unnormalisePcaBasis B E = scaleBasis (fun x => fdiv fone (fsqrt x)) B E.
Proof. reflexivity. Qed.


End Scaling.

(** C9. With the eigenvalues stored as a column vector ([n] rows, one
    column), column [j] of [normalisePcaBasis B E] is column [j] of [B]
    times [sqrt (E j)], and column [j] of [unnormalisePcaBasis B E] is
    column [j] of [B] times [1 / sqrt (E j)].  The first loop stops at
    [E.rows]: with the same eigenvalues stored as a row vector (one row,
    [n] columns) every column after the first is multiplied by the raw
    eigenvalue in both functions. *)
Theorem scaling_needs_column_vector {F : Type} {SF : Scalar F} (B E : Mat F) :
  Mat_wf B -> Mat_wf E ->
  rows E = cols B /\ cols E = 1 \/
  rows E = 1 /\ cols E = cols B /\ 1 <= cols B ->
  exists N U,
    normalisePcaBasis B E = Ok N /\ unnormalisePcaBasis B E = Ok U /\
    rows N = rows B /\ cols N = cols B /\
    rows U = rows B /\ cols U = cols B /\
    (rows E = cols B -> cols E = 1 ->
     forall i j b e,
       Mat_get B i j = Some b -> j < cols B ->
       Mat_at E (Z.of_nat j) = Ok e ->
       Mat_get N i j = Some (fmul b (fsqrt e)) /\
       Mat_get U i j = Some (fmul b (fdiv fone (fsqrt e)))) /\
    (rows E = 1 -> cols E = cols B ->
     forall i j b e,
       Mat_get B i j = Some b -> j < cols B ->
       Mat_at E (Z.of_nat j) = Ok e ->
       (j = 0 ->
        Mat_get N i j = Some (fmul b (fsqrt e)) /\
        Mat_get U i j = Some (fmul b (fdiv fone (fsqrt e)))) /\
       (1 <= j ->
        Mat_get N i j = Some (fmul b e) /\
        Mat_get U i j = Some (fmul b e))).
Proof.
  intros HB HE Hshape.
  assert (length (data E) = cols B /\ rows E <= length (data E))
    as [HlE HrE].
  { destruct HE as (Hl & _). rewrite Hl.
    destruct Hshape as [[-> ->]|(-> & -> & Hn)]; lia. }
  destruct (normalisePcaBasis_spec B E HB) as (N & HN & Hr & Hc & _ & HNget);
    [lia..|].
  destruct (unnormalisePcaBasis_spec B E HB) as (U & HU & Hr' & Hc' & _ & HUget);
    [lia..|].
  exists N, U.
  assert (forall i j b e, Mat_get B i j = Some b -> j < cols B ->
            Mat_at E (Z.of_nat j) = Ok e ->
            i < rows B /\ data E !! j = Some e) as Hin.
  { intros i j b e Hb Hj He. split.
    - apply lookup_lt_Some in Hb. destruct HB as (HlB & _).
      rewrite HlB in Hb. nia.
    - destruct (lookup_lt_is_Some_2 (data E) j) as [e' He']; [lia|].
      rewrite (Mat_at_lookup _ _ _ He') in He. congruence. }
  repeat (split; [assumption|]). split.
  - intros Hrows Hcols i j b e Hb Hj He.
    destruct (Hin i j b e Hb Hj He) as [Hi He'].
    rewrite (HNget i j Hi Hj), (HUget i j Hi Hj), Hb. unfold weight.
    rewrite He'. cbn. destruct (decide (j < rows E)); [|lia]. auto.
  - intros Hrows Hcols i j b e Hb Hj He.
    destruct (Hin i j b e Hb Hj He) as [Hi He'].
    rewrite (HNget i j Hi Hj), (HUget i j Hi Hj), Hb. unfold weight.
    rewrite He'. cbn. split.
    + intros ->. destruct (decide (0 < rows E)); [|lia]. auto.
    + intros Hj1. destruct (decide (j < rows E)); [lia|]. auto.
Qed.


(** ** Sampling from coefficients *)

Section Sampling.
Context {F : Type} {SF : Scalar F} {RS : RandomSource F}.

Lemma Mat_col_list_of_vector_from (v pre : list F) :
  omap (fun i => (pre ++ v) !! (i * 1 + 0)) (seq (length pre) (length v)) = v.
Proof.
  revert pre. induction v as [|x v IH]; intros pre; [reflexivity|].
  cbn. rewrite Nat.mul_1_r, Nat.add_0_r.
  rewrite (lookup_app_r pre) by lia. rewrite Nat.sub_diag. cbn.
  f_equal. specialize (IH (pre ++ [x])).
  rewrite <- (assoc_L (++)), length_app in IH. cbn in IH.
  replace (length pre + 1) with (S (length pre)) in IH by lia. exact IH.
Qed.

Lemma Mat_col_list_of_vector (v : list F) :
  Mat_col_list (Mat_of_vector v) 0 = v.
Proof. exact (Mat_col_list_of_vector_from v []). Qed.

Lemma bind_singleton {A B} (g : A -> B) (l : list A) :
  (i ← l; [g i]) = g <$> l.
Proof. induction l as [|a l IH]; [reflexivity|]. cbn. f_equal; exact IH. Qed.

(** The product of a matrix with a vector of as many elements as it has
    columns: one dot product per row. *)
Lemma Mat_mul_vector (A : Mat F) (v : list F) :
  length v = cols A ->
  Mat_mul A (Mat_of_vector v) =
    Ok (mkMat (rows A) 1 ((fun i => dot (Mat_row A i) v) <$> seq 0 (rows A))).
Proof.
  intros Hv. unfold Mat_mul.
  change (rows (Mat_of_vector v)) with (length v).
  change (cols (Mat_of_vector v)) with 1.
  destruct (decide (cols A = length v)) as [_|Hno]; [|lia].
  cbn [seq fmap list_fmap]. rewrite Mat_col_list_of_vector.
  rewrite bind_singleton. reflexivity.
Qed.

Lemma drawSample_spec (M : PcaModel) (c : list F) :
  PcaModel_wf M -> length c <= cols (normalisedPcaBasis M) ->
  drawSample M c =
    Ok (mkMat (rows (mean M)) 1
          (zip_with fadd (data (mean M))
             ((fun i => dot (Mat_row (normalisedPcaBasis M) i) (padded M c))
                <$> seq 0 (rows (normalisedPcaBasis M))))).
Proof.
  intros (_ & _ & _ & _ & Hmc & Hmr & _) Hc.
  unfold drawSample, getNumberOfPrincipalComponents. rewrite Nat2Z.id.
  assert ((if decide (Z.of_nat (length c) <
                      Z.of_nat (cols (normalisedPcaBasis M)))%Z
           then resize c (cols (normalisedPcaBasis M)) else c) = padded M c)
    as ->.
  { unfold padded, resize. destruct (decide _) as [Hlt|Hge].
    - rewrite take_ge by lia. reflexivity.
    - replace (cols (normalisedPcaBasis M) - length c) with 0 by lia.
      cbn. rewrite (right_id_L [] (++)). reflexivity. }
  rewrite Mat_mul_vector.
  2:{ unfold padded. rewrite length_app, length_replicate. lia. }
  cbn [mbind res_bind]. unfold Mat_add. cbn [rows cols data].
  destruct (decide (rows (mean M) = rows (normalisedPcaBasis M) /\
                    cols (mean M) = 1)) as [_|Hno]; [|tauto].
  rewrite Hmc. reflexivity.
Qed.

Lemma padded_idem (M : PcaModel) (c : list F) :
  length c <= cols (normalisedPcaBasis M) ->
  padded M (padded M c) = padded M c.
Proof.
  intros Hc. unfold padded at 1.
  replace (cols (normalisedPcaBasis M) - length (padded M c)) with 0.
  - cbn. apply (right_id_L [] (++)).
  - unfold padded. rewrite length_app, length_replicate. lia.
Qed.

Lemma length_padded (M : PcaModel) (c : list F) :
  length c <= cols (normalisedPcaBasis M) ->
  length (padded M c) = cols (normalisedPcaBasis M).
Proof.
  intros Hc. unfold padded. rewrite length_app, length_replicate. lia.
Qed.

End Sampling.

(** C2. For a model with [n] components and [k <= n] coefficients,
    [drawSample] returns the column vector whose row [i] is
    [mean i + (row i of the normalised basis) . alphas], where [alphas]
    is the coefficient vector followed by [n - k] zeros; calling it with
    [alphas] itself gives the same vector, so on a model with three
    components [drawSample [a0]] and [drawSample [a0; 0; 0]] agree. *)
Theorem drawSample_zero_padded {F : Type} {SF : Scalar F} {RS : RandomSource F}
    (M : PcaModel) (coefficients : list F) :
  PcaModel_wf M ->
  length coefficients <= cols (normalisedPcaBasis M) ->
  let alphas := padded M coefficients in
  exists S,
    drawSample M coefficients = Ok S /\
    rows S = rows (mean M) /\ cols S = 1 /\
    length (data S) = rows (mean M) /\
    (forall i m, data (mean M) !! i = Some m ->
       data S !! i =
         Some (fadd m (dot (Mat_row (normalisedPcaBasis M) i) alphas))) /\
    drawSample M alphas = Ok S /\
    (forall a0, coefficients = [a0] -> cols (normalisedPcaBasis M) = 3 ->
       drawSample M [a0; fzero; fzero] = Ok S).
Proof.
  intros HM Hc alphas.
  pose proof (drawSample_spec M coefficients HM Hc) as HS.
  pose proof (drawSample_spec M alphas HM) as HS'.
  unfold alphas in HS'. rewrite padded_idem, length_padded in HS' by exact Hc.
  specialize (HS' (le_n _)).
  destruct HM as (Hmean & _ & _ & _ & Hmc & Hmr & _).
  eexists. split; [exact HS|]. cbn [rows cols data].
  split; [reflexivity|]. split; [reflexivity|]. split.
  { rewrite length_zip_with, length_fmap, length_seq.
    destruct Hmean as (Hl & _). rewrite Hl, Hmc. lia. }
  split.
  { intros i m Hm. rewrite lookup_zip_with, Hm. cbn.
    rewrite list_lookup_fmap, lookup_seq_lt.
    - reflexivity.
    - apply lookup_lt_Some in Hm. destruct Hmean as (Hl & _).
      rewrite Hl, Hmc in Hm. lia. }
  split; [exact HS'|].
  intros a0 -> Hn. rewrite <- HS'. unfold alphas, padded. rewrite Hn.
  reflexivity.
Qed.

Lemma foldl_zeros (u : list R) :
  forall (k : nat) (acc : R),
    foldl Rplus acc (zip_with Rmult u (replicate k 0%R)) = acc.
Proof.
  induction u as [|x u IH]; intros k acc; [reflexivity|].
  destruct k as [|k]; [reflexivity|]. cbn. rewrite IH. lra.
Qed.

Lemma dot_zeros (u : list R) (k : nat) : dot u (replicate k 0%R) = 0%R.
Proof. apply foldl_zeros. Qed.

(** C6. In exact arithmetic, [drawSample] with no coefficients, or with
    [k <= n] coefficients that are all zero, returns the mean vector. *)
Theorem drawSample_zero_is_mean {RS : RandomSource R} (M : PcaModel) :
  PcaModel_wf M ->
  drawSample M [] = Ok (mean M) /\
  forall k, k <= cols (normalisedPcaBasis M) ->
    drawSample M (replicate k 0%R) = Ok (mean M).
Proof.
  intros HM.
  assert (forall k, k <= cols (normalisedPcaBasis M) ->
            drawSample M (replicate k 0%R) = Ok (mean M)) as Hk.
  { intros k Hk. rewrite drawSample_spec; [|exact HM|].
    2:{ rewrite length_replicate. exact Hk. }
    destruct HM as ((Hl & _) & _ & _ & _ & Hmc & Hmr & _).
    f_equal. destruct (mean M) as [r c d]. cbn in *. subst c. f_equal.
    apply list_eq. intros i. rewrite lookup_zip_with.
    destruct (d !! i) as [m|] eqn:Hm; [|reflexivity]. cbn.
    apply lookup_lt_Some in Hm.
    rewrite list_lookup_fmap, lookup_seq_lt by lia. cbn.
    unfold padded. rewrite length_replicate, <- replicate_add.
    change fzero with 0%R. rewrite dot_zeros. f_equal. lra. }
  split; [|exact Hk]. apply (Hk 0). lia.
Qed.

(** C7. The coefficient-based [drawSample] depends on the model only
    through its mean and its normalised basis: two models that agree on
    these give the same result for the same coefficients, whatever their
    engines hold, and the call leaves the object, engine included, as it
    was. *)
Theorem drawSample_deterministic {F : Type} {SF : Scalar F} {RS : RandomSource F}
    (M1 M2 : PcaModel) (coefficients : list F) :
  mean M1 = mean M2 ->
  normalisedPcaBasis M1 = normalisedPcaBasis M2 ->
  drawSample M1 coefficients = drawSample M2 coefficients /\
  (exec (DrawSample coefficients) M1).1 =
    (exec (DrawSample coefficients) M2).1 /\
  (exec (DrawSample coefficients) M1).2 = M1 /\
  engine (exec (DrawSample coefficients) M1).2 = engine M1.
Proof.
  intros Hmean Hbasis.
  assert (drawSample M1 coefficients = drawSample M2 coefficients) as Heq.
  { unfold drawSample, getNumberOfPrincipalComponents.
    rewrite Hmean, Hbasis. reflexivity. }
  split; [exact Heq|]. cbn. rewrite Heq. auto.
Qed.

(** C8, as the code has it.  With more coefficients than the model has
    components nothing is cut off: the product of the [3m x n] basis with
    the [k x 1] vector fails OpenCV's dimension check, and the call ends
    with that cv::Exception, the object unchanged. *)
Theorem drawSample_too_long_fails {F : Type} {SF : Scalar F} {RS : RandomSource F}
    (M : PcaModel) (coefficients : list F) :
  cols (normalisedPcaBasis M) < length coefficients ->
  drawSample M coefficients = Fail CvError /\
  (exec (DrawSample coefficients) M).2 = M.
Proof.
  intros Hlong. split; [|reflexivity].
  unfold drawSample, getNumberOfPrincipalComponents.
  destruct (decide (Z.of_nat (length coefficients) <
                    Z.of_nat (cols (normalisedPcaBasis M)))%Z); [lia|].
  unfold Mat_mul. cbn [rows Mat_of_vector].
  destruct (decide (cols (normalisedPcaBasis M) = length coefficients));
    [lia|reflexivity].
Qed.

(** ** The object over its lifetime *)

Section Lifetime.
Context {F : Type} {SF : Scalar F} {RS : RandomSource F}.

(** No call assigns to a matrix member or to the triangle list. *)
Lemma exec_keeps_matrices (c : call) (M : PcaModel) :
  mean (exec c M).2 = mean M /\
  normalisedPcaBasis (exec c M).2 = normalisedPcaBasis M /\
  unnormalisedPcaBasis (exec c M).2 = unnormalisedPcaBasis M /\
  eigenvalues (exec c M).2 = eigenvalues M /\
  triangleList (exec c M).2 = triangleList M.
Proof.
  destruct c; cbn; auto.
  unfold drawSample_sigma.
  destruct (draw_alphas _ _ _) as [alphas e]. cbn. auto.
Qed.

Lemma run_keeps_matrices (cs : list call) :
  forall M : PcaModel,
    mean (run cs M) = mean M /\
    normalisedPcaBasis (run cs M) = normalisedPcaBasis M /\
    unnormalisedPcaBasis (run cs M) = unnormalisedPcaBasis M /\
    eigenvalues (run cs M) = eigenvalues M /\
    triangleList (run cs M) = triangleList M.
Proof.
  induction cs as [|c cs IH]; intros M; [cbn; auto|].
  cbn [run]. destruct (IH (exec c M).2) as (-> & -> & -> & -> & ->).
  apply exec_keeps_matrices.
Qed.

(** Rows [a, a + k) of a matrix. *)
Lemma Mat_rowRange_spec (m : Mat F) (a k : nat) :
  Mat_wf m -> a + k <= rows m ->
  exists blk,
    Mat_rowRange m (Z.of_nat a) (Z.of_nat (a + k)) = Ok blk /\
    rows blk = k /\ cols blk = cols m /\
    forall i j, i < k -> j < cols m ->
      Mat_get blk i j = Mat_get m (a + i) j.
Proof.
  intros (Hl & _) Hak. unfold Mat_rowRange.
  destruct (decide _) as [_|Hno]; [|lia].
  rewrite !Nat2Z.id. replace (a + k - a) with k by lia.
  eexists. split; [reflexivity|]. cbn [rows cols data].
  split; [reflexivity|]. split; [reflexivity|].
  intros i j Hi Hj. unfold Mat_get. cbn [cols data].
  rewrite lookup_take.
  destruct (decide (i * cols m + j < k * cols m)) as [_|Hge]; [|nia].
  rewrite lookup_drop. f_equal. lia.
Qed.

End Lifetime.

(** C3. Constructing a model from a basis with [n] columns and a column
    vector of [n] eigenvalues succeeds, and from then on, after any
    sequence of calls of public members, both bases and the eigenvalues
    are the ones stored at construction and element [(i, j)] of the
    unnormalised basis is element [(i, j)] of the normalised basis times
    [1 / sqrt (eigenvalue j)]. *)
Theorem basis_consistency_invariant {F : Type} {SF : Scalar F} {RS : RandomSource F}
    (seed : Z) (mean0 pcaBasis E : Mat F) (triangles : list (Z * Z * Z)) :
  Mat_wf pcaBasis -> Mat_wf E -> rows E = cols pcaBasis -> cols E = 1 ->
  exists M,
    PcaModel_new seed mean0 pcaBasis E triangles = Ok M /\
    basis_consistent M /\
    forall cs : list call,
      normalisedPcaBasis (run cs M) = pcaBasis /\
      unnormalisedPcaBasis (run cs M) = unnormalisedPcaBasis M /\
      eigenvalues (run cs M) = E /\
      basis_consistent (run cs M).
Proof.
  intros HB HE Hrows Hcols.
  assert (length (data E) = cols pcaBasis) as HlE.
  { destruct HE as (Hl & _). rewrite Hl, Hrows, Hcols. lia. }
  destruct (unnormalisePcaBasis_spec pcaBasis E HB)
    as (U & HU & Hr & Hc & HUwf & HUget); [lia..|].
  unfold PcaModel_new. rewrite HU. cbn [mbind res_bind].
  eexists. split; [reflexivity|].
  assert (basis_consistent
            (mkPcaModel (engine_seed seed) mean0 pcaBasis U E triangles))
    as Hcons.
  { unfold basis_consistent. cbn [normalisedPcaBasis unnormalisedPcaBasis
                                  eigenvalues].
    split; [exact Hr|]. split; [exact Hc|].
    intros i j b e Hb He.
    assert (j < cols pcaBasis) as Hj.
    { destruct (decide (j < cols pcaBasis)) as [?|Hge]; [assumption|].
      rewrite Mat_at_beyond in He by lia. discriminate He. }
    assert (i < rows pcaBasis) as Hi.
    { apply lookup_lt_Some in Hb. destruct HB as (HlB & _).
      rewrite HlB in Hb. nia. }
    destruct (lookup_lt_is_Some_2 (data E) j) as [e' He']; [lia|].
    rewrite (Mat_at_lookup _ _ _ He') in He. injection He as ->.
    rewrite (HUget i j Hi Hj), Hb. unfold weight. rewrite He'. cbn.
    destruct (decide (j < rows E)); [reflexivity|lia]. }
  split; [exact Hcons|].
  intros cs.
  destruct (run_keeps_matrices cs
              (mkPcaModel (engine_seed seed) mean0 pcaBasis U E triangles))
    as (_ & HN & HUn & HEv & _).
  cbn [normalisedPcaBasis unnormalisedPcaBasis eigenvalues] in HN, HUn, HEv.
  split; [exact HN|]. split; [exact HUn|]. split; [exact HEv|].
  unfold basis_consistent. rewrite HN, HUn, HEv. exact Hcons.
Qed.

(** C5. For a valid vertex index [v], both per-vertex accessors return a
    matrix of three rows and [n] columns whose row [i] is row [3 v + i]
    of the matrix the corresponding full accessor returns. *)
Theorem vertex_basis_is_row_block {F : Type} {SF : Scalar F} {RS : RandomSource F}
    (M : PcaModel) (v : Z) :
  PcaModel_wf M -> (0 <= v < vertexCount M)%Z ->
  exists Nb Ub,
    getNormalisedPcaBasis_at M v = Ok Nb /\
    getUnnormalisedPcaBasis_at M v = Ok Ub /\
    rows Nb = 3 /\ cols Nb = cols (getNormalisedPcaBasis M) /\
    rows Ub = 3 /\ cols Ub = cols (getUnnormalisedPcaBasis M) /\
    forall i j, i < 3 -> j < cols (getNormalisedPcaBasis M) ->
      Mat_get Nb i j =
        Mat_get (getNormalisedPcaBasis M) (3 * Z.to_nat v + i) j /\
      Mat_get Ub i j =
        Mat_get (getUnnormalisedPcaBasis M) (3 * Z.to_nat v + i) j.
Proof.
  intros (_ & HN & HU & _ & _ & Hmr & Hmod & HUr & HUc & _) Hv.
  unfold vertexCount, getDataDimension in Hv.
  pose proof (Nat.div_mod_eq (rows (normalisedPcaBasis M)) 3) as Hdm.
  rewrite <- Hmr, Hmod, <- plus_n_O, Hmr in Hdm.
  assert (Z.of_nat (rows (normalisedPcaBasis M)) `div` 3 =
          Z.of_nat (rows (normalisedPcaBasis M) `div` 3))%Z as Hdiv.
  { rewrite Nat2Z.inj_div. reflexivity. }
  rewrite Hdiv in Hv.
  assert (3 * Z.to_nat v + 3 <= rows (normalisedPcaBasis M)) as Hle by lia.
  assert (Int.mul v 3 = Z.of_nat (3 * Z.to_nat v)) as Hmul.
  { unfold Int.mul. rewrite Int_wrap_id; [lia|].
    destruct HN as (_ & Hrmax & _).
    unfold Int.in_range, Int.INT_MIN, Int.INT_MAX in *. lia. }
  assert (Int.add (Z.of_nat (3 * Z.to_nat v)) 3 =
          Z.of_nat (3 * Z.to_nat v + 3)) as Hadd.
  { unfold Int.add. rewrite Int_wrap_id; [lia|].
    destruct HN as (_ & Hrmax & _).
    unfold Int.in_range, Int.INT_MIN, Int.INT_MAX in *. lia. }
  destruct (Mat_rowRange_spec (normalisedPcaBasis M) (3 * Z.to_nat v) 3 HN Hle)
    as (Nb & HNb & HNr & HNc & HNget).
  destruct (Mat_rowRange_spec (unnormalisedPcaBasis M) (3 * Z.to_nat v) 3 HU)
    as (Ub & HUb & HUbr & HUbc & HUget); [lia|].
  exists Nb, Ub. unfold getNormalisedPcaBasis_at, getUnnormalisedPcaBasis_at.
  rewrite Hmul, Hadd. unfold getNormalisedPcaBasis, getUnnormalisedPcaBasis,
    Mat_clone.
  repeat (split; [assumption|]).
  intros i j Hi Hj. split; [apply HNget|apply HUget]; lia.
Qed.

Example two_vertex_model_constructed :
  PcaModel_new 0 two_vertex_mean two_vertex_basis two_vertex_eigenvalues []
  = Ok two_vertex_model.
Proof. vm_compute. reflexivity. Qed.

Example one_vertex_model_constructed :
  PcaModel_new 0 (mean one_vertex_model) (normalisedPcaBasis one_vertex_model)
    (eigenvalues one_vertex_model) []
  = Ok one_vertex_model.
Proof. vm_compute. reflexivity. Qed.

(** The scenario of the specification: [drawSample [2]] is
    [(2, 0, 0, 1, 1, 3)]. *)
Example two_vertex_model_sample :
  drawSample two_vertex_model [b32_of_Z 2] =
  Ok (mkMat 6 1 (b32_of_Z <$> [2; 0; 0; 1; 1; 3]%Z)).
Proof. vm_compute. reflexivity. Qed.

Example two_vertex_model_sample_empty :
  drawSample two_vertex_model [] = Ok two_vertex_mean.
Proof. vm_compute. reflexivity. Qed.

Example one_vertex_model_sample_padded :
  drawSample one_vertex_model [b32_of_Z 2] =
  Ok (mkMat 3 1 (b32_of_Z <$> [7; 6; 7]%Z)) /\
  drawSample one_vertex_model [b32_of_Z 2; b32_of_Z 0; b32_of_Z 0] =
  Ok (mkMat 3 1 (b32_of_Z <$> [7; 6; 7]%Z)).
Proof. split; vm_compute; reflexivity. Qed.

(** Drawing with the tape source hands the drawn coefficients to the
    coefficient-based overload and leaves the engine advanced. *)
Example one_vertex_model_sigma :
  let M := mkPcaModel (RS := tape_source)
             (b32_of_Z <$> [2; 0; 0; 1]%Z) (mean one_vertex_model)
             (normalisedPcaBasis one_vertex_model)
             (unnormalisedPcaBasis one_vertex_model)
             (eigenvalues one_vertex_model) [] in
  (drawSample_sigma M (b32_of_Z 1)).1 =
    Ok (mkMat 3 1 (b32_of_Z <$> [7; 6; 7]%Z)) /\
  engine (drawSample_sigma M (b32_of_Z 1)).2 = [b32_of_Z 1].
Proof. split; vm_compute; reflexivity. Qed.


(** Where nothing overflows the tolerance is met: the rounded round trip
    of [binary32_round_trip_rounds] is within [1e-5] of its start. *)
Example binary32_round_trip_within_tolerance :
  Mat_within_tolerance
    (mkMat 3 1 [S754_finite false 16777215 (-24); b32_of_Z 0; b32_of_Z 0])
    (mkMat 3 1 (b32_of_Z <$> [1; 0; 0]%Z)) = true.
Proof. vm_compute. reflexivity. Qed.

(** Eigenvalues 4 and 9 as a row vector: the first column is scaled by
    2, the second by 9 instead of 3. *)
Example row_eigenvalues_normalised :
  normalisePcaBasis ones_basis row_eigenvalues =
  Ok (mkMat 3 2 (b32_of_Z <$> [2; 9; 2; 9; 2; 9]%Z)).
Proof. vm_compute. reflexivity. Qed.

(** In binary32 the round trip of the two-vertex basis is exact: the
    square root of 4 and its reciprocal are powers of two. *)
Example binary32_round_trip_exact :
  (N ← normalisePcaBasis two_vertex_basis two_vertex_eigenvalues;
   unnormalisePcaBasis N two_vertex_eigenvalues) = Ok two_vertex_basis.
Proof. vm_compute. reflexivity. Qed.

(** In general the binary32 round trip is exact only up to rounding: with
    eigenvalue 2 the entry 1 comes back as [1 - 2^-24]. *)
Example binary32_round_trip_rounds :
  (N ← normalisePcaBasis (mkMat 3 1 (b32_of_Z <$> [1; 0; 0]%Z))
         (mkMat 1 1 [b32_of_Z 2]);
   unnormalisePcaBasis N (mkMat 1 1 [b32_of_Z 2]))
  = Ok (mkMat 3 1 [S754_finite false 16777215 (-24); b32_of_Z 0; b32_of_Z 0]).
Proof. vm_compute. reflexivity. Qed.

Section MeanAtPoint.
Context {F : Type} {SF : Scalar F} {RS : RandomSource F}.

(** As long as [3 * vertexIndex] fits an [int], the check of
    [getMeanAtPoint] is the one the documentation describes, and it
    covers the three reads. *)
Lemma getMeanAtPoint_in_int_range (M : PcaModel) (v : Z) :
  PcaModel_wf M -> (0 <= v)%Z -> (3 * v <= Int.INT_MAX)%Z ->
  (getMeanAtPoint M v = Fail OutOfRange <-> (v * 3 >= getDataDimension M)%Z) /\
  ((v * 3 < getDataDimension M)%Z ->
   Forall (fun i => (0 <= i < Z.of_nat (rows (mean M)))%Z)
     (getMeanAtPoint_reads v) /\
   exists x y z,
     data (mean M) !! (3 * Z.to_nat v) = Some x /\
     data (mean M) !! (3 * Z.to_nat v + 1) = Some y /\
     data (mean M) !! (3 * Z.to_nat v + 2) = Some z /\
     getMeanAtPoint M v = Ok (mkVec4f x y z fone)).
Proof.
  intros ((Hl & Hrmax & _) & _ & _ & _ & Hmc & Hmr & Hmod & _) Hv Hfit.
  unfold getDataDimension. rewrite <- Hmr.
  assert (Int.mul v 3 = v * 3)%Z as Hmul.
  { unfold Int.mul. apply Int_wrap_id.
    unfold Int.in_range, Int.INT_MIN, Int.INT_MAX in *. lia. }
  pose proof (Nat.div_mod_eq (rows (mean M)) 3) as Hdm.
  rewrite Hmod, <- plus_n_O in Hdm.
  split.
  - unfold getMeanAtPoint. rewrite Hmul.
    destruct (decide (v * 3 >= Z.of_nat (rows (mean M)))%Z) as [Hge|Hlt].
    + tauto.
    + split; [|lia]. intros Hfail. exfalso.
      destruct (Mat_at (mean M) (v * 3)) as [x|e] eqn:Hx; cbn in Hfail.
      * destruct (Mat_at (mean M) (Int.add (v * 3) 1)) as [y|e] eqn:Hy;
          cbn in Hfail.
        -- destruct (Mat_at (mean M) (Int.add (v * 3) 2)) as [z|e] eqn:Hz;
             cbn in Hfail; [discriminate Hfail|].
           unfold Mat_at in Hz. destruct (_ <? 0)%Z; [congruence|].
           destruct (data (mean M) !! _); cbn in Hz; congruence.
        -- unfold Mat_at in Hy. destruct (_ <? 0)%Z; [congruence|].
           destruct (data (mean M) !! _); cbn in Hy; congruence.
      * unfold Mat_at in Hx. destruct (_ <? 0)%Z; [congruence|].
        destruct (data (mean M) !! _); cbn in Hx; congruence.
  - intros Hlt.
    assert (Int.add (v * 3) 1 = v * 3 + 1)%Z as Hadd1.
    { unfold Int.add. apply Int_wrap_id.
      unfold Int.in_range, Int.INT_MIN, Int.INT_MAX in *. lia. }
    assert (Int.add (v * 3) 2 = v * 3 + 2)%Z as Hadd2.
    { unfold Int.add. apply Int_wrap_id.
      unfold Int.in_range, Int.INT_MIN, Int.INT_MAX in *. lia. }
    split.
    { unfold getMeanAtPoint_reads. rewrite Hmul, Hadd1, Hadd2.
      repeat constructor; lia. }
    destruct (lookup_lt_is_Some_2 (data (mean M)) (3 * Z.to_nat v))
      as [x Hx]; [lia|].
    destruct (lookup_lt_is_Some_2 (data (mean M)) (3 * Z.to_nat v + 1))
      as [y Hy]; [lia|].
    destruct (lookup_lt_is_Some_2 (data (mean M)) (3 * Z.to_nat v + 2))
      as [z Hz]; [lia|].
    exists x, y, z. repeat (split; [assumption|]).
    unfold getMeanAtPoint. rewrite Hmul, Hadd1, Hadd2.
    destruct (decide (v * 3 >= Z.of_nat (rows (mean M)))%Z); [lia|].
    replace (v * 3)%Z with (Z.of_nat (3 * Z.to_nat v)) by lia.
    rewrite (Mat_at_lookup _ _ _ Hx).
    replace (Z.of_nat (3 * Z.to_nat v) + 1)%Z
      with (Z.of_nat (3 * Z.to_nat v + 1)) by lia.
    rewrite (Mat_at_lookup _ _ _ Hy).
    replace (Z.of_nat (3 * Z.to_nat v + 1) + 1)%Z
      with (Z.of_nat (3 * Z.to_nat v + 2)) by lia.
    replace (Z.of_nat (3 * Z.to_nat v) + 2)%Z
      with (Z.of_nat (3 * Z.to_nat v + 2)) by lia.
    rewrite (Mat_at_lookup _ _ _ Hz). reflexivity.
Qed.

(** One past the last vertex is rejected, the last vertex is served. *)
Lemma getMeanAtPoint_last_vertex (M : PcaModel) :
  PcaModel_wf M -> (1 <= vertexCount M)%Z ->
  getMeanAtPoint M (vertexCount M) = Fail OutOfRange /\
  exists p, getMeanAtPoint M (vertexCount M - 1) = Ok p.
Proof.
  intros HM Hm.
  assert (getDataDimension M = 3 * vertexCount M)%Z as Hdim.
  { destruct HM as (_ & _ & _ & _ & _ & Hmr & Hmod & _).
    unfold vertexCount, getDataDimension in *. rewrite <- Hmr.
    pose proof (Nat.div_mod_eq (rows (mean M)) 3) as Hdm.
    rewrite Hmod, <- plus_n_O in Hdm.
    change 3%Z with (Z.of_nat 3).
    rewrite <- Nat2Z.inj_div, <- Nat2Z.inj_mul. f_equal. exact Hdm. }
  assert (getDataDimension M <= Int.INT_MAX)%Z as Hmax.
  { destruct HM as (_ & (_ & Hr & _) & _). exact Hr. }
  split.
  - apply (getMeanAtPoint_in_int_range M (vertexCount M) HM); lia.
  - destruct (getMeanAtPoint_in_int_range M (vertexCount M - 1) HM)
      as (_ & Hok); [lia..|].
    destruct Hok as (_ & x & y & z & _ & _ & _ & Hp); [lia|].
    eexists. exact Hp.
Qed.

End MeanAtPoint.

(** ** The vertex index beyond a third of [INT_MAX] *)

(** C4, at an index whose triple does not fit an [int].  On the
    two-vertex model (data dimension 6) the index 1431655766 is far past
    the last vertex, but [vertexIndex *= 3] leaves 2 in the variable: the
    check passes and the call returns, as a point, the elements 2, 3 and
    4 of the mean. *)
Theorem getMeanAtPoint_overflow_not_rejected :
  PcaModel_wf two_vertex_model /\
  (0 <= 1431655766 <= Int.INT_MAX)%Z /\
  (1431655766 * 3 >= getDataDimension two_vertex_model)%Z /\
  Int.mul 1431655766 3 = 2%Z /\
  getMeanAtPoint two_vertex_model 1431655766 =
    Ok (mkVec4f (b32_of_Z 0) (b32_of_Z 1) (b32_of_Z 1) (b32_of_Z 1)).
Proof.
  split.
  { unfold PcaModel_wf, Mat_wf, Int.INT_MAX. cbn. repeat split; lia. }
  split; [unfold Int.INT_MAX; lia|].
  split; [vm_compute; discriminate|].
  split; vm_compute; reflexivity.
Qed.

(** C10, at the same index on the one-vertex model (mean of three
    rows): the check sees 2 < 3 and lets the call through, and the reads
    at 3 and 4 are outside the mean. *)
Theorem getMeanAtPoint_overflow_reads_past_end :
  rows (mean one_vertex_model) = 3 /\
  (0 <= 1431655766 <= Int.INT_MAX)%Z /\
  getMeanAtPoint_reads 1431655766 = [2; 3; 4]%Z /\
  getMeanAtPoint one_vertex_model 1431655766 = Fail OutOfBounds /\
  getMeanAtPoint one_vertex_model 1431655766 <> Fail OutOfRange.
Proof.
  split; [reflexivity|].
  split; [unfold Int.INT_MAX; lia|].
  split; [vm_compute; reflexivity|].
  split; [vm_compute; reflexivity|].
  vm_compute. discriminate.
Qed.

(** ** The properties on concrete inputs *)

Ltac concrete_wf :=
  unfold PcaModel_wf, Mat_wf, Int.INT_MAX; cbn; repeat split; lia.


Lemma drawSample_zero_padded_witness :
  exists S,
    drawSample one_vertex_model [b32_of_Z 2] = Ok S /\
    drawSample one_vertex_model [b32_of_Z 2; fzero; fzero] = Ok S.
Proof.
  destruct (drawSample_zero_padded one_vertex_model [b32_of_Z 2])
    as (S & HS & _ & _ & _ & _ & _ & HS').
  - concrete_wf.
  - cbn. lia.
  - exists S. split; [exact HS|]. apply (HS' (b32_of_Z 2)); reflexivity.
Defined.

Lemma basis_consistency_invariant_witness :
  exists M,
    PcaModel_new 0 two_vertex_mean two_vertex_basis two_vertex_eigenvalues []
      = Ok M /\
    basis_consistent (run [DrawSampleSigma (b32_of_Z 1); GetMean] M).
Proof.
  destruct (basis_consistency_invariant (RS := tape_source) 0
              two_vertex_mean two_vertex_basis two_vertex_eigenvalues [])
    as (M & HM & _ & Hrun).
  - concrete_wf.
  - concrete_wf.
  - reflexivity.
  - reflexivity.
  - exists M. split; [exact HM|]. apply Hrun.
Defined.

Lemma vertex_basis_is_row_block_witness :
  exists Nb Ub,
    getNormalisedPcaBasis_at two_vertex_model 1 = Ok Nb /\
    getUnnormalisedPcaBasis_at two_vertex_model 1 = Ok Ub /\
    rows Nb = 3 /\ rows Ub = 3.
Proof.
  destruct (vertex_basis_is_row_block two_vertex_model 1)
    as (Nb & Ub & HNb & HUb & HNr & _ & HUr & _).
  - concrete_wf.
  - vm_compute. split; [discriminate|reflexivity].
  - exists Nb, Ub. auto.
Defined.

Lemma drawSample_zero_is_mean_witness :
  drawSample two_vertex_model_R [] = Ok (mean two_vertex_model_R) /\
  forall k, k <= cols (normalisedPcaBasis two_vertex_model_R) ->
    drawSample two_vertex_model_R (replicate k 0%R) =
    Ok (mean two_vertex_model_R).
Proof.
  apply (drawSample_zero_is_mean two_vertex_model_R). concrete_wf.
Defined.

Lemma drawSample_deterministic_witness :
  drawSample two_vertex_model [b32_of_Z 2] =
  drawSample two_vertex_model_other [b32_of_Z 2].
Proof.
  apply (drawSample_deterministic two_vertex_model two_vertex_model_other
           [b32_of_Z 2]); reflexivity.
Defined.

Lemma drawSample_too_long_fails_witness :
  drawSample two_vertex_model [b32_of_Z 1; b32_of_Z 2] = Fail CvError /\
  (exec (DrawSample [b32_of_Z 1; b32_of_Z 2]) two_vertex_model).2 =
    two_vertex_model.
Proof.
  apply (drawSample_too_long_fails two_vertex_model). cbn. lia.
Defined.

(** C8 as the claim has it fails on the two-vertex model (one
    component) with two coefficients: no vector is returned. *)
Lemma drawSample_too_long_counterexample :
  PcaModel_wf two_vertex_model /\
  cols (normalisedPcaBasis two_vertex_model) <
    length [b32_of_Z 1; b32_of_Z 2] /\
  ~ exists S, drawSample two_vertex_model [b32_of_Z 1; b32_of_Z 2] = Ok S.
Proof.
  split; [concrete_wf|]. split; [cbn; lia|].
  intros [S HS]. vm_compute in HS. discriminate HS.
Qed.

Lemma scaling_needs_column_vector_witness :
  exists N U,
    normalisePcaBasis ones_basis row_eigenvalues = Ok N /\
    unnormalisePcaBasis ones_basis row_eigenvalues = Ok U /\
    Mat_get N 0 1 = Some (fmul (b32_of_Z 1) (b32_of_Z 9)) /\
    Mat_get U 0 1 = Some (fmul (b32_of_Z 1) (b32_of_Z 9)).
Proof.
  destruct (scaling_needs_column_vector ones_basis row_eigenvalues)
    as (N & U & HN & HU & _ & _ & _ & _ & _ & Hrow).
  - concrete_wf.
  - concrete_wf.
  - right. cbn. lia.
  - exists N, U. split; [exact HN|]. split; [exact HU|].
    apply (Hrow eq_refl eq_refl 0 1 (b32_of_Z 1) (b32_of_Z 9));
      [reflexivity|cbn; lia|reflexivity|lia].
Defined.

(** * Further properties of the header *)

(** ** Construction *)

(** X1. From a mean of [3 m] rows, a basis of [3 m] rows and [n] columns
    and a column vector of [n] eigenvalues the constructor builds a model
    that satisfies the dimensional invariants, reports [3 m] as data
    dimension and [n] as number of components, and hands back the mean,
    the basis and the triangle list it was given. *)
Theorem PcaModel_new_well_formed {F : Type} {SF : Scalar F}
    {RS : RandomSource F} (seed : Z) (mean0 pcaBasis E : Mat F)
    (triangles : list (Z * Z * Z)) :
  Mat_wf mean0 -> Mat_wf pcaBasis -> Mat_wf E ->
  cols mean0 = 1 -> rows mean0 = rows pcaBasis -> rows mean0 `mod` 3 = 0 ->
  rows E = cols pcaBasis -> cols E = 1 ->
  exists M,
    PcaModel_new seed mean0 pcaBasis E triangles = Ok M /\
    PcaModel_wf M /\
    getDataDimension M = Z.of_nat (rows mean0) /\
    getNumberOfPrincipalComponents M = Z.of_nat (rows E) /\
    getMean M = mean0 /\
    getNormalisedPcaBasis M = pcaBasis /\
    getTriangleList M = triangles.
Proof.
  intros Hmean HB HE Hmc Hmr Hmod Hrows Hcols.
  assert (length (data E) = cols pcaBasis) as HlE.
  { destruct HE as (Hl & _). rewrite Hl, Hrows, Hcols. lia. }
  destruct (unnormalisePcaBasis_spec pcaBasis E HB)
    as (U & HU & Hr & Hc & HUwf & _); [lia..|].
  unfold PcaModel_new. rewrite HU. cbn [mbind res_bind].
  eexists. split; [reflexivity|].
  unfold PcaModel_wf, getDataDimension, getNumberOfPrincipalComponents,
    getMean, getNormalisedPcaBasis, getTriangleList, Mat_clone.
  cbn [mean normalisedPcaBasis unnormalisedPcaBasis eigenvalues triangleList].
  rewrite Hmr, Hrows. repeat split; try assumption; try apply Hmean;
    try apply HB; try apply HUwf; try apply HE; congruence.
Qed.

Lemma PcaModel_new_well_formed_witness :
  exists M,
    PcaModel_new 0 two_vertex_mean two_vertex_basis two_vertex_eigenvalues []
      = Ok M /\
    PcaModel_wf M /\ getDataDimension M = 6%Z.
Proof.
  destruct (PcaModel_new_well_formed (RS := tape_source) 0 two_vertex_mean
              two_vertex_basis two_vertex_eigenvalues [])
    as (M & HM & Hwf & Hdim & _); try reflexivity; try concrete_wf.
  exists M. auto.
Defined.

Section TooFewEigenvalues.
Context {F : Type} {SF : Scalar F}.

(** The second loop reads the scaling vector at every column index; once
    the index reaches the end of that vector the read is out of bounds. *)
Lemma each_col_short (B scale : Mat F) (n : nat) :
  Mat_wf B ->
  forall (a : nat) (out : Mat F),
    a <= length (data scale) -> length (data scale) < a + n ->
    a + n <= cols B ->
    each_col B scale (seq a n) out = Fail OutOfBounds.
Proof.
  intros HB. induction n as [|n IH]; intros a out Ha Hshort Hcols; [lia|].
  cbn [seq each_col].
  destruct (decide (a = length (data scale))) as [->|Hne].
  - rewrite Mat_at_beyond by lia. reflexivity.
  - destruct (lookup_lt_is_Some_2 (data scale) a) as [w Hw]; [lia|].
    destruct (Mat_col_spec B a HB) as (v & Hcol & _); [lia|].
    rewrite (Mat_at_lookup _ _ _ Hw), Hcol. cbn [mbind res_bind].
    apply IH; lia.
Qed.

End TooFewEigenvalues.

(** X2. With a column vector of fewer eigenvalues than the basis has
    columns nothing is checked: both free functions read the scaling
    vector past its end, and so does the constructor. *)
Theorem too_few_eigenvalues_out_of_bounds {F : Type} {SF : Scalar F}
    {RS : RandomSource F} (B E : Mat F) :
  Mat_wf B -> Mat_wf E -> cols E = 1 -> rows E < cols B ->
  normalisePcaBasis B E = Fail OutOfBounds /\
  unnormalisePcaBasis B E = Fail OutOfBounds /\
  forall seed mean0 triangles,
    PcaModel_new seed mean0 B E triangles = Fail OutOfBounds.
Proof.
  intros HB HE Hcols Hfew.
  assert (length (data E) = rows E) as HlE.
  { destruct HE as (Hl & _). rewrite Hl, Hcols. lia. }
  assert (forall f, scaleBasis f B E = Fail OutOfBounds) as Hfail.
  { intros f. unfold scaleBasis.
    destruct (each_row_spec f E (rows E) 0 (Mat_clone E))
      as (s & -> & _ & _ & Hls & _); [lia|reflexivity|].
    cbn [mbind res_bind]. apply (each_col_short B s (cols B) HB).
    - lia.
    - rewrite Hls. unfold Mat_clone. lia.
    - lia. }
  split; [exact (Hfail fsqrt)|].
  assert (unnormalisePcaBasis B E = Fail OutOfBounds) as HU.
  { exact (Hfail (fun x => fdiv fone (fsqrt x))). }
  split; [exact HU|].
  intros seed mean0 triangles. unfold PcaModel_new. rewrite HU. reflexivity.
Qed.

Lemma too_few_eigenvalues_out_of_bounds_witness :
  normalisePcaBasis ones_basis two_vertex_eigenvalues = Fail OutOfBounds /\
  unnormalisePcaBasis ones_basis two_vertex_eigenvalues = Fail OutOfBounds.
Proof.
  destruct (too_few_eigenvalues_out_of_bounds (RS := tape_source)
              ones_basis two_vertex_eigenvalues) as (HN & HU & _).
  - concrete_wf.
  - concrete_wf.
  - reflexivity.
  - cbn. lia.
  - split; [exact HN|exact HU].
Defined.

(** ** Unchecked indices *)

(** X3. [getEigenvalue] returns eigenvalue [index] for
    [0 <= index < n]; for any other index it raises nothing and reads
    outside the eigenvalue buffer. *)
Theorem getEigenvalue_bounds {F : Type} {SF : Scalar F} {RS : RandomSource F}
    (M : PcaModel) (index : Z) :
  PcaModel_wf M ->
  ((0 <= index < getNumberOfPrincipalComponents M)%Z ->
   exists e, data (eigenvalues M) !! Z.to_nat index = Some e /\
             getEigenvalue M index = Ok e) /\
  ((index < 0 \/ getNumberOfPrincipalComponents M <= index)%Z ->
   getEigenvalue M index = Fail OutOfBounds).
Proof.
  intros (_ & _ & _ & (Hl & _) & _ & _ & _ & _ & _ & Hrows & Hcols).
  unfold getNumberOfPrincipalComponents, getEigenvalue.
  rewrite Hrows, Hcols in Hl. split.
  - intros Hin.
    destruct (lookup_lt_is_Some_2 (data (eigenvalues M)) (Z.to_nat index))
      as [e He]; [lia|].
    exists e. split; [exact He|].
    rewrite <- (Z2Nat.id index) by lia. apply Mat_at_lookup. exact He.
  - intros Hout. apply Mat_at_beyond. lia.
Qed.

Lemma getEigenvalue_bounds_witness :
  (exists e, data (eigenvalues one_vertex_model) !! Z.to_nat 2 = Some e /\
             getEigenvalue one_vertex_model 2 = Ok e) /\
  getEigenvalue one_vertex_model 3 = Fail OutOfBounds.
Proof.
  destruct (getEigenvalue_bounds one_vertex_model 2) as (Hin & _);
    [concrete_wf|].
  destruct (getEigenvalue_bounds one_vertex_model 3) as (_ & Hout);
    [concrete_wf|].
  split.
  - apply Hin. vm_compute. split; [discriminate|reflexivity].
  - apply Hout. right. vm_compute. discriminate.
Defined.

(** X4. Outside [0, vertexCount) the per-vertex basis accessors do not
    return a block: as long as [3 v] and [3 v + 3] fit an [int], the row
    range is rejected by OpenCV's range check. *)
Theorem vertex_basis_out_of_range {F : Type} {SF : Scalar F}
    {RS : RandomSource F} (M : PcaModel) (v : Z) :
  PcaModel_wf M ->
  (-715827882 <= v <= 715827881)%Z ->
  (v < 0 \/ vertexCount M <= v)%Z ->
  getNormalisedPcaBasis_at M v = Fail CvError /\
  getUnnormalisedPcaBasis_at M v = Fail CvError.
Proof.
  intros (_ & _ & _ & _ & _ & Hmr & Hmod & HUr & _) Hfit Hout.
  unfold vertexCount, getDataDimension in Hout.
  pose proof (Nat.div_mod_eq (rows (normalisedPcaBasis M)) 3) as Hdm.
  rewrite <- Hmr, Hmod, <- plus_n_O, Hmr in Hdm.
  change 3%Z with (Z.of_nat 3) in Hout. rewrite <- Nat2Z.inj_div in Hout.
  assert (Int.mul v 3 = v * 3)%Z as Hmul.
  { unfold Int.mul. apply Int_wrap_id.
    unfold Int.in_range, Int.INT_MIN, Int.INT_MAX. lia. }
  assert (Int.add (v * 3) 3 = v * 3 + 3)%Z as Hadd.
  { unfold Int.add. apply Int_wrap_id.
    unfold Int.in_range, Int.INT_MIN, Int.INT_MAX. lia. }
  unfold getNormalisedPcaBasis_at, getUnnormalisedPcaBasis_at, Mat_rowRange.
  rewrite Hmul, Hadd, HUr.
  destruct (decide _) as [Hin|_]; [lia|]. auto.
Qed.

Lemma vertex_basis_out_of_range_witness :
  getNormalisedPcaBasis_at two_vertex_model 2 = Fail CvError /\
  getUnnormalisedPcaBasis_at two_vertex_model (-1) = Fail CvError.
Proof.
  destruct (vertex_basis_out_of_range two_vertex_model 2) as (HN & _);
    [concrete_wf|lia|right; vm_compute; discriminate|].
  destruct (vertex_basis_out_of_range two_vertex_model (-1)) as (_ & HU);
    [concrete_wf|lia|left; lia|].
  split; [exact HN|exact HU].
Defined.

(** X5. A negative vertex index passes the check of [getMeanAtPoint]
    (only the upper end is compared): as long as [3 v] fits an [int] the
    call raises no [std::out_of_range] and reads the mean at a negative
    position. *)
Theorem getMeanAtPoint_negative_unchecked {F : Type} {SF : Scalar F}
    {RS : RandomSource F} (M : PcaModel) (v : Z) :
  (-715827882 <= v < 0)%Z ->
  getMeanAtPoint M v = Fail OutOfBounds /\
  getMeanAtPoint_reads v !! 0 = Some (3 * v)%Z.
Proof.
  intros Hv.
  assert (Int.mul v 3 = v * 3)%Z as Hmul.
  { unfold Int.mul. apply Int_wrap_id.
    unfold Int.in_range, Int.INT_MIN, Int.INT_MAX. lia. }
  split.
  - unfold getMeanAtPoint. rewrite Hmul.
    destruct (decide (v * 3 >= Z.of_nat (rows (mean M)))%Z); [lia|].
    rewrite (Mat_at_beyond (mean M) (v * 3)%Z) by lia. reflexivity.
  - unfold getMeanAtPoint_reads. rewrite Hmul. cbn. f_equal. lia.
Qed.

Lemma getMeanAtPoint_negative_unchecked_witness :
  getMeanAtPoint two_vertex_model (-1) = Fail OutOfBounds.
Proof.
  apply (getMeanAtPoint_negative_unchecked two_vertex_model (-1)). lia.
Defined.

(** ** Random sampling and the object over a run *)

Section Sigma.
Context {F : Type} {SF : Scalar F} {RS : RandomSource F}.



Lemma exec_keeps_wf (c : call) (M : PcaModel) :
  PcaModel_wf M -> PcaModel_wf (exec c M).2.
Proof.
  intros HM. destruct (exec_keeps_matrices c M) as (Hm & Hn & Hu & He & _).
  unfold PcaModel_wf. rewrite Hm, Hn, Hu, He. exact HM.
Qed.

End Sigma.



(** X7. Whatever public members have been called before, in whatever
    order, the model still satisfies its dimensional invariants and every
    member that does not draw answers as it did at the start: the
    getters, the mean and eigenvalue lookups, the per-vertex accessors
    and the coefficient-based [drawSample]. *)
Theorem calls_do_not_change_answers {F : Type} {SF : Scalar F}
    {RS : RandomSource F} (M : PcaModel) (cs : list call) :
  PcaModel_wf M ->
  PcaModel_wf (run cs M) /\
  getMean (run cs M) = getMean M /\
  getTriangleList (run cs M) = getTriangleList M /\
  getDataDimension (run cs M) = getDataDimension M /\
  getNumberOfPrincipalComponents (run cs M) =
    getNumberOfPrincipalComponents M /\
  getNormalisedPcaBasis (run cs M) = getNormalisedPcaBasis M /\
  getUnnormalisedPcaBasis (run cs M) = getUnnormalisedPcaBasis M /\
  (forall v, getMeanAtPoint (run cs M) v = getMeanAtPoint M v) /\
  (forall i, getEigenvalue (run cs M) i = getEigenvalue M i) /\
  (forall v, getNormalisedPcaBasis_at (run cs M) v =
             getNormalisedPcaBasis_at M v) /\
  (forall v, getUnnormalisedPcaBasis_at (run cs M) v =
             getUnnormalisedPcaBasis_at M v) /\
  (forall c, drawSample (run cs M) c = drawSample M c).
Proof.
  intros HM.
  destruct (run_keeps_matrices cs M) as (Hm & Hn & Hu & He & Ht).
  split.
  { unfold PcaModel_wf. rewrite Hm, Hn, Hu, He. exact HM. }
  unfold getMean, getTriangleList, getDataDimension,
    getNumberOfPrincipalComponents, getNormalisedPcaBasis,
    getUnnormalisedPcaBasis, getMeanAtPoint, getEigenvalue,
    getNormalisedPcaBasis_at, getUnnormalisedPcaBasis_at, drawSample,
    getNumberOfPrincipalComponents.
  rewrite Hm, Hn, Hu, He, Ht. repeat split; reflexivity.
Qed.

Lemma calls_do_not_change_answers_witness :
  PcaModel_wf (run [DrawSampleSigma (b32_of_Z 1); GetMeanAtPoint 7;
                    DrawSample [b32_of_Z 1; b32_of_Z 1]] two_vertex_model) /\
  getMeanAtPoint
    (run [DrawSampleSigma (b32_of_Z 1); GetMeanAtPoint 7;
          DrawSample [b32_of_Z 1; b32_of_Z 1]] two_vertex_model) 1 =
  getMeanAtPoint two_vertex_model 1.
Proof.
  destruct (calls_do_not_change_answers two_vertex_model
              [DrawSampleSigma (b32_of_Z 1); GetMeanAtPoint 7;
               DrawSample [b32_of_Z 1; b32_of_Z 1]])
    as (Hwf & _ & _ & _ & _ & _ & _ & Hpoint & _); [concrete_wf|].
  split; [exact Hwf|apply Hpoint].
Defined.

(** ** Samples as functions of the coefficients (exact arithmetic) *)

Lemma foldl_Rplus_acc (l : list R) :
  forall acc : R, foldl Rplus acc l = (acc + foldl Rplus 0 l)%R.
Proof.
  induction l as [|x l IH]; intros acc; cbn.
  - lra.
  - rewrite (IH (acc + x)%R), (IH (0 + x)%R). lra.
Qed.

Lemma dot_cons (x y : R) (u v : list R) :
  dot (x :: u) (y :: v) = (x * y + dot u v)%R.
Proof.
  unfold dot. cbn. rewrite foldl_Rplus_acc. lra.
Qed.


Lemma dot_single (a : R) (k : nat) :
  forall (j : nat) (u : list R) (x : R),
    u !! j = Some x ->
    dot u (replicate j 0%R ++ a :: replicate k 0%R) = (x * a)%R.
Proof.
  induction j as [|j IH]; intros u x Hx.
  - destruct u as [|y u]; [discriminate Hx|]. cbn in Hx.
    injection Hx as ->. cbn [replicate app]. rewrite dot_cons, dot_zeros.
    lra.
  - destruct u as [|y u]; [discriminate Hx|]. cbn in Hx.
    cbn [replicate app]. rewrite dot_cons, (IH u x Hx). lra.
Qed.

Lemma Mat_row_lookup {F : Type} (m : Mat F) (i j : nat) :
  j < cols m -> Mat_row m i !! j = Mat_get m i j.
Proof.
  intros Hj. unfold Mat_row, Mat_get. rewrite lookup_take.
  destruct (decide (j < cols m)); [|lia]. apply lookup_drop.
Qed.

Lemma drawSample_entry {RS : RandomSource R} (M : PcaModel) (c : list R)
    (S : Mat R) (i : nat) (m : R) :
  PcaModel_wf M -> length c <= cols (normalisedPcaBasis M) ->
  drawSample M c = Ok S ->
  data (mean M) !! i = Some m ->
  data S !! i =
    Some (m + dot (Mat_row (normalisedPcaBasis M) i) (padded M c))%R.
Proof.
  intros HM Hc HS Hm. rewrite (drawSample_spec M c HM Hc) in HS.
  injection HS as <-. cbn [data]. rewrite lookup_zip_with, Hm. cbn.
  destruct HM as ((Hl & _) & _ & _ & _ & Hmc & Hmr & _).
  apply lookup_lt_Some in Hm. rewrite Hl, Hmc in Hm.
  rewrite list_lookup_fmap, lookup_seq_lt by lia. reflexivity.
Qed.



(** X9. In exact arithmetic a single coefficient [a] at position
    [j < n], all others zero, moves every row of the mean by [a] times
    the entry of column [j] of the normalised basis in that row. *)
Theorem drawSample_single_coefficient {RS : RandomSource R} (M : PcaModel)
    (j : nat) (a : R) :
  PcaModel_wf M -> j < cols (normalisedPcaBasis M) ->
  exists S,
    drawSample M (replicate j 0%R ++ [a]) = Ok S /\
    forall i m b,
      data (mean M) !! i = Some m ->
      Mat_get (normalisedPcaBasis M) i j = Some b ->
      data S !! i = Some (m + b * a)%R.
Proof.
  intros HM Hj.
  assert (length (replicate j 0%R ++ [a]) <= cols (normalisedPcaBasis M))
    as Hc.
  { rewrite length_app, length_replicate. cbn. lia. }
  eexists. split; [apply (drawSample_spec M _ HM Hc)|].
  intros i m b Hm Hb.
  rewrite (drawSample_entry M _ _ i m HM Hc (drawSample_spec M _ HM Hc) Hm).
  f_equal. f_equal. unfold padded. rewrite <- (assoc_L (++)). cbn [app].
  change fzero with 0%R. apply dot_single.
  rewrite Mat_row_lookup by exact Hj. exact Hb.
Qed.

Lemma drawSample_single_coefficient_witness :
  exists S,
    drawSample two_vertex_model_R (replicate 0 0%R ++ [2%R]) = Ok S /\
    forall i m b,
      data (mean two_vertex_model_R) !! i = Some m ->
      Mat_get (normalisedPcaBasis two_vertex_model_R) i 0 = Some b ->
      data S !! i = Some (m + b * 2)%R.
Proof.
  apply (drawSample_single_coefficient two_vertex_model_R 0 2%R).
  - concrete_wf.
  - cbn. lia.
Defined.

(** ** The per-vertex blocks as a partition of the basis *)

Section Blocks.
Context {F : Type} {SF : Scalar F}.

Lemma chunks_concat (k : nat) (d : list F) (q : nat) :
  forall a : nat,
    concat ((fun v => take k (drop (v * k) d)) <$> seq a q) =
    take (q * k) (drop (a * k) d).
Proof.
  induction q as [|q IH]; intros a; [reflexivity|].
  cbn [seq fmap list_fmap concat]. rewrite (IH (S a)).
  replace (S a * k) with (a * k + k) by lia.
  rewrite <- drop_drop, take_take_drop. f_equal.
Qed.

Lemma Mat_rowRange_vertex (m : Mat F) (v : nat) :
  Mat_wf m -> 3 * v + 3 <= rows m ->
  Mat_rowRange m (Int.mul (Z.of_nat v) 3) (Int.add (Int.mul (Z.of_nat v) 3) 3)
  = Ok (mkMat 3 (cols m)
          (take (3 * cols m) (drop (v * (3 * cols m)) (data m)))).
Proof.
  intros (_ & Hmax & _) Hv.
  assert (Int.mul (Z.of_nat v) 3 = Z.of_nat (3 * v)) as ->.
  { unfold Int.mul. rewrite Int_wrap_id; [lia|].
    unfold Int.in_range, Int.INT_MIN, Int.INT_MAX in *. lia. }
  assert (Int.add (Z.of_nat (3 * v)) 3 = Z.of_nat (3 * v + 3)) as ->.
  { unfold Int.add. rewrite Int_wrap_id; [lia|].
    unfold Int.in_range, Int.INT_MIN, Int.INT_MAX in *. lia. }
  unfold Mat_rowRange. destruct (decide _) as [_|Hno]; [|lia].
  rewrite !Nat2Z.id. replace (3 * v + 3 - 3 * v) with 3 by lia.
  replace (3 * v * cols m) with (v * (3 * cols m)) by lia.
  reflexivity.
Qed.

Lemma row_blocks_tile (m : Mat F) (q : nat) (blocks : list (Mat F)) :
  Mat_wf m -> rows m = 3 * q ->
  Forall2 (fun v blk =>
             Mat_rowRange m (Int.mul (Z.of_nat v) 3)
               (Int.add (Int.mul (Z.of_nat v) 3) 3) = Ok blk)
    (seq 0 q) blocks ->
  concat (data <$> blocks) = data m.
Proof.
  intros Hm Hrows Hblocks.
  assert (blocks =
          (fun v => mkMat 3 (cols m)
                      (take (3 * cols m) (drop (v * (3 * cols m)) (data m))))
            <$> seq 0 q) as ->.
  { apply Forall2_same_length_lookup in Hblocks as [Hlen Hall].
    rewrite length_seq in Hlen.
    apply list_eq. intros i. rewrite list_lookup_fmap.
    destruct (decide (i < q)) as [Hi|Hi].
    - rewrite lookup_seq_lt by exact Hi. cbn.
      destruct (lookup_lt_is_Some_2 blocks i) as [blk Hblk]; [lia|].
      rewrite Hblk. f_equal.
      specialize (Hall i i blk (lookup_seq_lt 0 q i Hi) Hblk).
      rewrite Mat_rowRange_vertex in Hall by (assumption || lia).
      injection Hall as <-. reflexivity.
    - rewrite (proj2 (lookup_ge_None blocks i)) by lia.
      rewrite (proj2 (lookup_ge_None (seq 0 q) i)); [reflexivity|].
      rewrite length_seq. lia. }
  rewrite <- list_fmap_compose.
  change (concat ((fun v => take (3 * cols m)
                              (drop (v * (3 * cols m)) (data m)))
                    <$> seq 0 q) = data m).
  rewrite (chunks_concat (3 * cols m) (data m) q 0). cbn [Nat.mul drop].
  apply take_ge. destruct Hm as (Hl & _). rewrite Hl, Hrows. lia.
Qed.

End Blocks.

(** X10. The per-vertex blocks partition each basis: the blocks the
    accessor returns for the vertices [0, 1, ..., m - 1], laid end to
    end, are exactly the elements of the full basis, nothing missing and
    nothing twice. *)
Theorem vertex_blocks_tile_basis {F : Type} {SF : Scalar F}
    {RS : RandomSource F} (M : PcaModel) (blocksN blocksU : list (Mat F)) :
  PcaModel_wf M ->
  Forall2 (fun v blk => getNormalisedPcaBasis_at M (Z.of_nat v) = Ok blk)
    (seq 0 (Z.to_nat (vertexCount M))) blocksN ->
  Forall2 (fun v blk => getUnnormalisedPcaBasis_at M (Z.of_nat v) = Ok blk)
    (seq 0 (Z.to_nat (vertexCount M))) blocksU ->
  concat (data <$> blocksN) = data (getNormalisedPcaBasis M) /\
  concat (data <$> blocksU) = data (getUnnormalisedPcaBasis M).
Proof.
  intros (_ & HN & HU & _ & _ & Hmr & Hmod & HUr & _) HbN HbU.
  unfold vertexCount, getDataDimension in HbN, HbU.
  pose proof (Nat.div_mod_eq (rows (normalisedPcaBasis M)) 3) as Hdm.
  rewrite <- Hmr, Hmod, <- plus_n_O, Hmr in Hdm.
  change 3%Z with (Z.of_nat 3) in HbN, HbU.
  rewrite <- Nat2Z.inj_div, Nat2Z.id in HbN, HbU.
  split.
  - apply (row_blocks_tile (normalisedPcaBasis M)
             (rows (normalisedPcaBasis M) `div` 3) blocksN HN Hdm HbN).
  - apply (row_blocks_tile (unnormalisedPcaBasis M)
             (rows (normalisedPcaBasis M) `div` 3) blocksU HU);
      [congruence|exact HbU].
Qed.

Lemma vertex_blocks_tile_basis_witness :
  concat (data <$> [mkMat 3 1 (b32_of_Z <$> [1; 0; 0]%Z);
                    mkMat 3 1 (b32_of_Z <$> [0; 0; 1]%Z)]) =
  data (getNormalisedPcaBasis two_vertex_model).
Proof.
  destruct (vertex_blocks_tile_basis two_vertex_model
              [mkMat 3 1 (b32_of_Z <$> [1; 0; 0]%Z);
               mkMat 3 1 (b32_of_Z <$> [0; 0; 1]%Z)]
              [mkMat 3 1 [b32_frac 1 2; b32_of_Z 0; b32_of_Z 0];
               mkMat 3 1 [b32_of_Z 0; b32_of_Z 0; b32_frac 1 2]])
    as [HN _].
  - concrete_wf.
  - constructor; [vm_compute; reflexivity|].
    constructor; [vm_compute; reflexivity|]. constructor.
  - constructor; [vm_compute; reflexivity|].
    constructor; [vm_compute; reflexivity|]. constructor.
  - exact HN.
Defined.

(** ** More on the free functions *)



(** X12. Only the first [n] eigenvalues count: for two column vectors of
    at least [n] eigenvalues that agree on their first [n] entries, both
    free functions succeed on either vector and return the same
    normalised and the same unnormalised basis, of the shape of the
    input. *)
Theorem surplus_eigenvalues_ignored {F : Type} {SF : Scalar F}
    (B E E' : Mat F) :
  Mat_wf B -> Mat_wf E -> Mat_wf E' ->
  cols E = 1 -> cols E' = 1 ->
  cols B <= rows E -> cols B <= rows E' ->
  (forall j, j < cols B -> data E !! j = data E' !! j) ->
  exists N U,
    normalisePcaBasis B E = Ok N /\ normalisePcaBasis B E' = Ok N /\
    unnormalisePcaBasis B E = Ok U /\ unnormalisePcaBasis B E' = Ok U /\
    rows N = rows B /\ cols N = cols B /\
    rows U = rows B /\ cols U = cols B.
Proof.
  intros HB HE HE' Hc Hc' Hn Hn' Hagree.
  assert (length (data E) = rows E) as Hl.
  { destruct HE as (Hl & _). rewrite Hl, Hc. lia. }
  assert (length (data E') = rows E') as Hl'.
  { destruct HE' as (Hl0 & _). rewrite Hl0, Hc'. lia. }
  assert (forall f, exists N,
            scaleBasis f B E = Ok N /\ scaleBasis f B E' = Ok N /\
            rows N = rows B /\ cols N = cols B) as Heq.
  { intros f.
    destruct (scale_loops_spec f B E HB)
      as (N & HN & Hr & Hcn & HNwf & HNget); [lia..|].
    destruct (scale_loops_spec f B E' HB)
      as (N' & HN' & Hr' & Hcn' & HNwf' & HNget'); [lia..|].
    exists N. unfold scaleBasis. rewrite HN, HN'.
    split; [reflexivity|]. split; [|split; assumption].
    f_equal. symmetry.
    apply Mat_ext; [congruence|congruence|apply HNwf|apply HNwf'|].
    intros i j Hi Hj. rewrite Hr' in Hi. rewrite Hcn' in Hj.
    rewrite (HNget i j Hi Hj), (HNget' i j Hi Hj).
    unfold weight. rewrite (Hagree j Hj).
    destruct (decide (j < rows E)), (decide (j < rows E')); try lia.
    reflexivity. }
  destruct (Heq fsqrt) as (N & HN & HN' & HrN & HcN).
  destruct (Heq (fun x => fdiv fone (fsqrt x))) as (U & HU & HU' & HrU & HcU).
  exists N, U. repeat split; assumption.
Qed.

Lemma surplus_eigenvalues_ignored_witness :
  exists N,
    normalisePcaBasis two_vertex_basis two_vertex_eigenvalues = Ok N /\
    normalisePcaBasis two_vertex_basis (mkMat 2 1 (b32_of_Z <$> [4; 9]%Z))
      = Ok N.
Proof.
  destruct (surplus_eigenvalues_ignored two_vertex_basis
              two_vertex_eigenvalues (mkMat 2 1 (b32_of_Z <$> [4; 9]%Z)))
    as (N & U & HN & HN' & _).
  - concrete_wf.
  - concrete_wf.
  - concrete_wf.
  - reflexivity.
  - reflexivity.
  - cbn. lia.
  - cbn. lia.
  - intros [|j] Hj; [reflexivity|cbn in Hj; lia].
  - exists N. split; [exact HN|exact HN'].
Defined.



